(** * Authentication and session core of go-rest-api-poc

    Shallow embedding of the auth domain: the repository over the
    relational store ([internal/domain/auth/module.go]), the optional
    Redis auth cache ([internal/infra/cache/redis_auth_cache.go]), the
    service ([Service] in the auth package), the JWT service, the bcrypt and
    SHA-256 helpers and the authentication middleware
    ([internal/infra/middleware/auth_middleware.go]).

    Modelling conventions.
    - Time is a [Z] count of nanoseconds since the Unix epoch, durations are
      [Z] nanoseconds ([time.Duration]).  Every [time.Now()] read inside one
      service call returns the same instant [now]: the reads of one call are
      nanoseconds apart and no claim below depends on that spread.
    - SQL tables are lists of rows; an UPDATE maps over the rows matching
      its WHERE clause.
    - The Redis cache is a pair of [gmap]s from id to (value, deadline); an
      entry is visible to a read strictly before its deadline.
    - Failures of the store and of the cache are an oracle [Faults]: a call
      whose [Call] is marked fails with the error the Go code would see.
    - SHA-256 ([HashToken]) and the Blowfish core of bcrypt are opaque
      functions (Section variables); only their determinism is used.
    - A signed JWT is kept structured: its header algorithm, its claims and
      the key it was signed with.  HMAC verification with the service
      secret succeeds exactly for tokens signed with that secret. *)

From Stdlib Require Import ZArith String Ascii Bool Lia.
From stdpp Require Import base gmap strings list pretty sorting.

Local Open Scope Z_scope.

(* ------------------------------------------------------------------ *)
(** ** Errors and results *)

(** Sentinel errors of the auth package, [pgx.ErrNoRows], and wrapping by
    [fmt.Errorf("...: %w", err)]. *)
Inductive Err :=
| ErrInvalidCredentials
| ErrUserNotActive
| ErrUserBlocked
| ErrEmailAlreadyExists
| ErrInvalidOTP
| ErrSessionNotFound
| ErrSessionInactive
| ErrSessionExpired
| ErrInvalidToken
| ErrExpiredToken
| ErrNoRows                          (* pgx.ErrNoRows *)
| ErrDb (what : string)              (* any other store or cache failure *)
| ErrWrap (msg : string) (inner : Err).

Global Instance Err_eq_dec : EqDecision Err.
Proof. solve_decision. Defined.

(** [errors.Is(err, target)]: unwrap [%w] layers, then compare. *)
Fixpoint err_is (target e : Err) : bool :=
  match e with
  | ErrWrap _ inner => err_is target inner
  | _ => bool_decide (e = target)
  end.

Inductive Result (A : Type) :=
| Ok (a : A)
| Error (e : Err).
Arguments Ok {A} a.
Arguments Error {A} e.

(* ------------------------------------------------------------------ *)
(** ** Data model *)

(** A bcrypt hash "$2a$<cost>$<salt><hash>" in parsed form. *)
Record BcryptHash := {
  bh_cost : Z;
  bh_salt : string;
  bh_hash : string
}.

(** [UserWithAuth] joined with its role name, plus the columns the
    queries filter on. *)
Record User := {
  u_id : string;
  u_email : string;
  u_password : BcryptHash;
  u_role : string;
  u_is_active : bool;
  u_is_blocked : bool;
  u_blocked_at : option Z;
  u_blocked_by : option string;
  u_updated_at : Z;
  u_deleted : bool                   (* deleted_at IS NOT NULL *)
}.

(** [Session], a row of [user_sessions] (device info, IP address and user
    agent are opaque to every operation modelled here and are left out). *)
Record Session := {
  s_id : string;
  s_user_id : string;
  s_refresh_token_hash : string;
  s_is_active : bool;
  s_last_activity_at : Z;
  s_expires_at : Z;
  s_created_at : Z
}.

(** [PasswordResetToken], a row of [password_reset_tokens]. *)
Record ResetToken := {
  rt_id : string;
  rt_user_id : string;
  rt_token_hash : string;
  rt_otp : string;
  rt_expires_at : Z;
  rt_used_at : option Z;
  rt_created_at : Z
}.

Record Store := {
  users : list User;
  sessions : list Session;
  reset_tokens : list ResetToken
}.

Record CachedSession := {
  cs_user_id : string;
  cs_is_active : bool;
  cs_expires_at : Z                  (* 0 is Go's zero time *)
}.

Record CachedUser := {
  cu_email : string;
  cu_role : string;
  cu_is_active : bool;
  cu_is_blocked : bool
}.

(** Redis keys "auth:session:<id>" and "auth:user:<id>", each with the
    instant at which its TTL runs out. *)
Record CacheStore := {
  c_sessions : gmap string (CachedSession * Z);
  c_users : gmap string (CachedUser * Z)
}.

(** The store, and the cache when one is configured ([cache == nil]
    otherwise). *)
Record State := {
  db : Store;
  cache : option CacheStore
}.

(** Store and cache calls that can fail. *)
Inductive Call :=
| CGetUserByEmail | CGetUserByID | CGetActiveIds | CBlockUser
| CUpdatePassword | CCreateSession | CGetSessionByHash | CGetSessionByID
| CUpdateSessionRefresh | CInvalidate | CInvalidateAll
| CCreateResetToken | CGetResetToken | CMarkUsed
| CGenerateOTP | CGenerateToken
| CCacheDelSession | CCacheDelUser.

Definition Faults := Call -> bool.

Definition no_faults : Faults := fun _ => false.

(* ------------------------------------------------------------------ *)
(** ** A state-and-error monad *)

Definition M (A : Type) := State -> Result A * State.

Definition ret {A} (a : A) : M A := fun st => (Ok a, st).
Definition throw {A} (e : Err) : M A := fun st => (Error e, st).
Definition bind {A B} (m : M A) (k : A -> M B) : M B :=
  fun st => match m st with
            | (Ok a, st') => k a st'
            | (Error e, st') => (Error e, st')
            end.
(** [if err != nil { handler(err) }] *)
Definition catch {A} (m : M A) (h : Err -> M A) : M A :=
  fun st => match m st with
            | (Ok a, st') => (Ok a, st')
            | (Error e, st') => h e st'
            end.
(** [return fmt.Errorf("msg: %w", err)] *)
Definition wrap {A} (msg : string) (m : M A) : M A :=
  catch m (fun e => throw (ErrWrap msg e)).
(** [_ = call(...)]: the error is dropped, the effects are kept. *)
Definition ignore {A} (m : M A) : M unit :=
  fun st => (Ok tt, snd (m st)).
Definition modify (g : State -> State) : M unit := fun st => (Ok tt, g st).
Definition get : M State := fun st => (Ok st, st).

Declare Scope auth_monad_scope.
Notation "x <- m ;; k" := (bind m (fun x => k))
  (at level 100, m at next level, right associativity) : auth_monad_scope.
Notation "m ;;; k" := (bind m (fun _ => k))
  (at level 100, right associativity) : auth_monad_scope.
Local Open Scope auth_monad_scope.

Fixpoint mapM_ {A} (g : A -> M unit) (l : list A) : M unit :=
  match l with
  | [] => ret tt
  | x :: l' => g x ;;; mapM_ g l'
  end.

(* ------------------------------------------------------------------ *)
(** ** Configuration and tokens *)

(** [config.AuthConfig] (with [Audience[0]]) and [cfg.Cache.TTL]. *)
Record Config := {
  jwt_secret : string;
  jwt_issuer : string;
  audience : string;
  access_token_lifetime : Z;
  refresh_token_lifetime : Z;
  stay_signed_in_lifetime : Z;
  password_reset_otp_lifetime : Z;
  cache_ttl : Z
}.

(** The claims of a [jwt.MapClaims]; [email] and [role] are absent from
    refresh tokens. *)
Record Claims := {
  cl_user_id : string;
  cl_email : option string;
  cl_role : option string;
  cl_session_id : string;
  cl_iat : Z;
  cl_exp : Z;
  cl_iss : string;
  cl_aud : string
}.

(** A token string: a compact JWS (header algorithm, claims, signing key),
    or any other string. *)
Inductive Token :=
| JWT (alg : string) (c : Claims) (key : string)
| Raw (s : string).

Definition second : Z := 1000000000.

(** [time.Time.Unix()]. *)
Definition unix (t : Z) : Z := t / second.

Record AccessTokenClaims := {
  ac_user_id : string;
  ac_email : string;
  ac_role : string;
  ac_session_id : string
}.

Record RefreshTokenClaims := {
  rc_user_id : string;
  rc_session_id : string
}.

Section Model.

(** SHA-256 followed by hex encoding ([HashToken]). *)
Variable HashToken : Token -> string.
(** The Blowfish-based core of bcrypt: cost, salt and the 72 key bytes that
    the key schedule reads. *)
Variable eks_blowfish : Z -> string -> list ascii -> string.
Variable cfg : Config.

(** *** JWTService *)

Definition GenerateAccessToken (userID email role sessionID : string)
    (now : Z) : Token :=
  JWT "HS256" {| cl_user_id := userID; cl_email := Some email;
                 cl_role := Some role; cl_session_id := sessionID;
                 cl_iat := unix now;
                 cl_exp := unix (now + access_token_lifetime cfg);
                 cl_iss := jwt_issuer cfg; cl_aud := audience cfg |}
      (jwt_secret cfg).

Definition GenerateRefreshToken (userID sessionID : string) (lifetime : Z)
    (now : Z) : Token :=
  JWT "HS256" {| cl_user_id := userID; cl_email := None; cl_role := None;
                 cl_session_id := sessionID;
                 cl_iat := unix now; cl_exp := unix (now + lifetime);
                 cl_iss := jwt_issuer cfg; cl_aud := audience cfg |}
      (jwt_secret cfg).

Definition is_hmac (alg : string) : bool :=
  String.eqb alg "HS256" || String.eqb alg "HS384" || String.eqb alg "HS512".

(** [jwt.Parse] with the HMAC key function, then the issuer and audience
    checks shared by both validators.  Signature first, then [exp]
    ([now] must be before it). *)
Definition parse_and_check (now : Z) (tok : Token) : Result Claims :=
  match tok with
  | JWT alg c key =>
      if negb (is_hmac alg) then Error ErrInvalidToken
      else if negb (String.eqb key (jwt_secret cfg)) then Error ErrInvalidToken
      else if negb (now <? cl_exp c * second) then Error ErrExpiredToken
      else if negb (String.eqb (cl_iss c) (jwt_issuer cfg)) then Error ErrInvalidToken
      else if negb (String.eqb (cl_aud c) (audience cfg)) then Error ErrInvalidToken
      else Ok c
  | Raw _ => Error ErrInvalidToken
  end.

(** [getStringClaim] *)
Definition string_claim (o : option string) : string :=
  match o with Some s => s | None => EmptyString end.

Definition ValidateAccessToken (now : Z) (tok : Token)
    : Result AccessTokenClaims :=
  match parse_and_check now tok with
  | Ok c => Ok {| ac_user_id := cl_user_id c; ac_email := string_claim (cl_email c);
                  ac_role := string_claim (cl_role c);
                  ac_session_id := cl_session_id c |}
  | Error e => Error e
  end.

Definition ValidateRefreshToken (now : Z) (tok : Token)
    : Result RefreshTokenClaims :=
  match parse_and_check now tok with
  | Ok c => Ok {| rc_user_id := cl_user_id c; rc_session_id := cl_session_id c |}
  | Error e => Error e
  end.

(** *** bcrypt ([HashPassword], [ComparePassword]) *)

(** [expensiveBlowfishSetup] appends a NUL byte to the key. *)
Definition bcrypt_key (p : string) : list ascii :=
  list_ascii_of_string p ++ [Ascii.zero].

(** The key schedule reads 18 words of 4 bytes through [getNextWord], which
    cycles over the key from position 0: the 72 bytes it sees. *)
Definition key_stream (p : string) : list ascii :=
  let k := bcrypt_key p in
  map (fun i => nth (Nat.modulo i (length k)) k Ascii.zero) (seq 0 72%nat).

Definition bcrypt_default_cost : Z := 10.

(** [HashPassword] with the random salt as input.  [GenerateFromPassword]
    rejects passwords longer than 72 bytes. *)
Definition HashPassword (salt p : string) : Result BcryptHash :=
  if (72 <? String.length p)%nat
  then Error (ErrWrap "failed to hash password"
                (ErrDb "bcrypt: password length exceeds 72 bytes"))
  else Ok {| bh_cost := bcrypt_default_cost; bh_salt := salt;
             bh_hash := eks_blowfish bcrypt_default_cost salt (key_stream p) |}.

(** [ComparePassword(hash, plain) == nil]: recompute with the stored cost
    and salt, compare the hashes. *)
Definition ComparePassword (h : BcryptHash) (p : string) : bool :=
  String.eqb (eks_blowfish (bh_cost h) (bh_salt h) (key_stream p)) (bh_hash h).

(** *** Repository *)

(** A query on the store; no row is [pgx.ErrNoRows], wrapped. *)
Definition db_read {A} (f : Faults) (c : Call) (msg : string)
    (q : Store -> option A) : M A :=
  fun st => if f c then (Error (ErrWrap msg (ErrDb "store")), st)
            else match q (db st) with
                 | Some a => (Ok a, st)
                 | None => (Error (ErrWrap msg ErrNoRows), st)
                 end.

(** An [Exec] statement; a failed statement changes nothing. *)
Definition db_write (f : Faults) (c : Call) (msg : string)
    (u : Store -> Store) : M unit :=
  fun st => if f c then (Error (ErrWrap msg (ErrDb "store")), st)
            else (Ok tt, {| db := u (db st); cache := cache st |}).

Definition with_users (s : Store) (l : list User) : Store :=
  {| users := l; sessions := sessions s; reset_tokens := reset_tokens s |}.
Definition with_sessions (s : Store) (l : list Session) : Store :=
  {| users := users s; sessions := l; reset_tokens := reset_tokens s |}.
Definition with_reset_tokens (s : Store) (l : list ResetToken) : Store :=
  {| users := users s; sessions := sessions s; reset_tokens := l |}.

(** [WHERE u.email = $1 AND u.deleted_at IS NULL] *)
Definition user_by_email (email : string) (s : Store) : option User :=
  find (fun u => String.eqb (u_email u) email && negb (u_deleted u)) (users s).

(** [WHERE u.id = $1 AND u.deleted_at IS NULL] *)
Definition user_by_id (userID : string) (s : Store) : option User :=
  find (fun u => String.eqb (u_id u) userID && negb (u_deleted u)) (users s).

Definition GetUserByEmail (f : Faults) (email : string) : M User :=
  db_read f CGetUserByEmail "failed to get user by email" (user_by_email email).

Definition GetUserByID (f : Faults) (userID : string) : M User :=
  db_read f CGetUserByID "failed to get user by ID" (user_by_id userID).

(** [SELECT id FROM user_sessions WHERE user_id = $1 AND is_active = true] *)
Definition active_session_ids (userID : string) (s : Store) : list string :=
  map s_id (filter (fun x => String.eqb (s_user_id x) userID && s_is_active x)
                   (sessions s)).

Definition GetActiveSessionIDsByUserID (f : Faults) (userID : string)
    : M (list string) :=
  db_read f CGetActiveIds "failed to query session ids"
    (fun s => Some (active_session_ids userID s)).

Definition set_password (h : BcryptHash) (now : Z) (u : User) : User :=
  {| u_id := u_id u; u_email := u_email u; u_password := h; u_role := u_role u;
     u_is_active := u_is_active u; u_is_blocked := u_is_blocked u;
     u_blocked_at := u_blocked_at u; u_blocked_by := u_blocked_by u;
     u_updated_at := now; u_deleted := u_deleted u |}.

Definition set_blocked (blockedBy : string) (now : Z) (u : User) : User :=
  {| u_id := u_id u; u_email := u_email u; u_password := u_password u;
     u_role := u_role u; u_is_active := u_is_active u; u_is_blocked := true;
     u_blocked_at := Some now; u_blocked_by := Some blockedBy;
     u_updated_at := now; u_deleted := u_deleted u |}.

(** [UPDATE users SET ... WHERE id = $n AND deleted_at IS NULL] *)
Definition update_user (userID : string) (g : User -> User) (s : Store) : Store :=
  with_users s (map (fun u => if String.eqb (u_id u) userID && negb (u_deleted u)
                              then g u else u) (users s)).

Definition UpdateUserPassword (f : Faults) (userID : string) (h : BcryptHash)
    (now : Z) : M unit :=
  db_write f CUpdatePassword "failed to update user password"
    (update_user userID (set_password h now)).

Definition RepoBlockUser (f : Faults) (userID blockedBy : string) (now : Z)
    : M unit :=
  db_write f CBlockUser "failed to block user"
    (update_user userID (set_blocked blockedBy now)).

(** [INSERT INTO user_sessions ... RETURNING id]: [newID] is the id the
    store generates. *)
Definition CreateSession (f : Faults) (newID : string) (x : Session) : M Session :=
  fun st =>
    if f CCreateSession
    then (Error (ErrWrap "failed to create session" (ErrDb "store")), st)
    else
      let x' := {| s_id := newID; s_user_id := s_user_id x;
                   s_refresh_token_hash := s_refresh_token_hash x;
                   s_is_active := s_is_active x;
                   s_last_activity_at := s_last_activity_at x;
                   s_expires_at := s_expires_at x; s_created_at := s_created_at x |} in
      (Ok x', {| db := with_sessions (db st) (sessions (db st) ++ [x']);
                 cache := cache st |}).

(** [WHERE refresh_token_hash = $1] *)
Definition session_by_hash (h : string) (s : Store) : option Session :=
  find (fun x => String.eqb (s_refresh_token_hash x) h) (sessions s).

(** [WHERE id = $1] *)
Definition session_by_id (sessionID : string) (s : Store) : option Session :=
  find (fun x => String.eqb (s_id x) sessionID) (sessions s).

Definition GetSessionByRefreshTokenHash (f : Faults) (h : string) : M Session :=
  db_read f CGetSessionByHash "failed to get session" (session_by_hash h).

Definition GetSessionByID (f : Faults) (sessionID : string) : M Session :=
  db_read f CGetSessionByID "failed to get session" (session_by_id sessionID).

Definition set_refresh (h : string) (now : Z) (x : Session) : Session :=
  {| s_id := s_id x; s_user_id := s_user_id x; s_refresh_token_hash := h;
     s_is_active := s_is_active x; s_last_activity_at := now;
     s_expires_at := s_expires_at x; s_created_at := s_created_at x |}.

Definition set_inactive (x : Session) : Session :=
  {| s_id := s_id x; s_user_id := s_user_id x;
     s_refresh_token_hash := s_refresh_token_hash x;
     s_is_active := false; s_last_activity_at := s_last_activity_at x;
     s_expires_at := s_expires_at x; s_created_at := s_created_at x |}.

Definition update_sessions (p : Session -> bool) (g : Session -> Session)
    (s : Store) : Store :=
  with_sessions s (map (fun x => if p x then g x else x) (sessions s)).

Definition UpdateSessionRefreshToken (f : Faults) (sessionID h : string)
    (now : Z) : M unit :=
  db_write f CUpdateSessionRefresh "failed to update session refresh token"
    (update_sessions (fun x => String.eqb (s_id x) sessionID) (set_refresh h now)).

Definition InvalidateSession (f : Faults) (sessionID : string) : M unit :=
  db_write f CInvalidate "failed to invalidate session"
    (update_sessions (fun x => String.eqb (s_id x) sessionID) set_inactive).

Definition InvalidateAllUserSessions (f : Faults) (userID : string) : M unit :=
  db_write f CInvalidateAll "failed to invalidate all user sessions"
    (update_sessions (fun x => String.eqb (s_user_id x) userID) set_inactive).

Definition CreatePasswordResetToken (f : Faults) (t : ResetToken) : M unit :=
  db_write f CCreateResetToken "failed to create password reset token"
    (fun s => with_reset_tokens s (reset_tokens s ++ [t])).

(** [JOIN users u ON prt.user_id = u.id WHERE u.email = $1 AND prt.otp = $2
    AND prt.used_at IS NULL AND prt.expires_at > NOW()
    ORDER BY prt.created_at DESC LIMIT 1] *)
Definition reset_token_matches (email otp : string) (now : Z) (s : Store)
    (t : ResetToken) : bool :=
  existsb (fun u => String.eqb (u_id u) (rt_user_id t) && String.eqb (u_email u) email)
          (users s)
  && String.eqb (rt_otp t) otp
  && match rt_used_at t with None => true | Some _ => false end
  && (now <? rt_expires_at t).

Definition newest (l : list ResetToken) : option ResetToken :=
  fold_left (fun acc t => match acc with
                          | Some b => if rt_created_at b <? rt_created_at t
                                      then Some t else Some b
                          | None => Some t
                          end) l None.

Definition reset_token_for (email otp : string) (now : Z) (s : Store)
    : option ResetToken :=
  newest (filter (reset_token_matches email otp now s) (reset_tokens s)).

Definition GetPasswordResetToken (f : Faults) (email otp : string) (now : Z)
    : M ResetToken :=
  db_read f CGetResetToken "failed to get password reset token"
    (reset_token_for email otp now).

Definition set_used (now : Z) (t : ResetToken) : ResetToken :=
  {| rt_id := rt_id t; rt_user_id := rt_user_id t; rt_token_hash := rt_token_hash t;
     rt_otp := rt_otp t; rt_expires_at := rt_expires_at t; rt_used_at := Some now;
     rt_created_at := rt_created_at t |}.

Definition MarkPasswordResetTokenAsUsed (f : Faults) (tokenID : string)
    (now : Z) : M unit :=
  db_write f CMarkUsed "failed to mark password reset token as used"
    (fun s => with_reset_tokens s
       (map (fun t => if String.eqb (rt_id t) tokenID then set_used now t else t)
            (reset_tokens s))).

(** *** Redis auth cache *)

(** Go's zero [time.Time] (January 1, year 1, UTC), in Unix nanoseconds. *)
Definition zero_time : Z := -62135596800 * second.

Definition map_cache (g : CacheStore -> CacheStore) : M unit :=
  modify (fun st => {| db := db st;
                       cache := match cache st with
                                | Some c => Some (g c)
                                | None => None
                                end |}).

(** [GetSession]/[GetUser]: a hit is a key whose TTL has not run out.  A
    failed read is handled by every caller like a miss and is modelled as
    one. *)
Definition cache_get_session (sessionID : string) (now : Z)
    : M (option CachedSession) :=
  fun st => (Ok (match cache st with
                 | Some c => match c_sessions c !! sessionID with
                             | Some (v, d) => if now <? d then Some v else None
                             | None => None
                             end
                 | None => None
                 end), st).

Definition cache_get_user (userID : string) (now : Z) : M (option CachedUser) :=
  fun st => (Ok (match cache st with
                 | Some c => match c_users c !! userID with
                             | Some (v, d) => if now <? d then Some v else None
                             | None => None
                             end
                 | None => None
                 end), st).

(** [SetSession]/[SetUser]: a TTL that is not positive stores nothing.
    The callers drop the result ([_ = ...]). *)
Definition cache_set_session (sessionID : string) (v : CachedSession)
    (ttl now : Z) : M unit :=
  if ttl <=? 0 then ret tt
  else map_cache (fun c => {| c_sessions := <[sessionID := (v, now + ttl)]> (c_sessions c);
                              c_users := c_users c |}).

Definition cache_set_user (userID : string) (v : CachedUser) (ttl now : Z)
    : M unit :=
  if ttl <=? 0 then ret tt
  else map_cache (fun c => {| c_sessions := c_sessions c;
                              c_users := <[userID := (v, now + ttl)]> (c_users c) |}).

(** [DelSession]/[DelUser]. *)
Definition cache_del_session (f : Faults) (sessionID : string) : M unit :=
  if f CCacheDelSession then throw (ErrDb "redis")
  else map_cache (fun c => {| c_sessions := delete sessionID (c_sessions c);
                              c_users := c_users c |}).

Definition cache_del_user (f : Faults) (userID : string) : M unit :=
  if f CCacheDelUser then throw (ErrDb "redis")
  else map_cache (fun c => {| c_sessions := c_sessions c;
                              c_users := delete userID (c_users c) |}).

(** *** Service *)

Definition lift {A} (r : Result A) : M A :=
  match r with Ok a => ret a | Error e => throw e end.

(** [v, err := call(); if err != nil { onErr(err) } else { k(v) }] *)
Definition bind_or {A B} (m : M A) (onErr : Err -> M B) (k : A -> M B) : M B :=
  fun st => match m st with
            | (Ok a, st') => k a st'
            | (Error e, st') => onErr e st'
            end.

Definition has_cache : M bool :=
  fun st => (Ok (match cache st with Some _ => true | None => false end), st).

(** [Service.cacheDelSession]: best effort, failures are only logged. *)
Definition cacheDelSession (f : Faults) (sessionID : string) : M unit :=
  c <- has_cache ;;
  if negb c || String.eqb sessionID EmptyString then ret tt
  else ignore (cache_del_session f sessionID).

(** [Service.cacheDelUser] *)
Definition cacheDelUser (f : Faults) (userID : string) : M unit :=
  c <- has_cache ;;
  if negb c || String.eqb userID EmptyString then ret tt
  else ignore (cache_del_user f userID).

(** [sessionIDs, err := GetActiveSessionIDsByUserID(...)]: on error the
    slice is nil and the error is only logged. *)
Definition active_ids_best_effort (f : Faults) (userID : string)
    : M (list string) :=
  bind_or (GetActiveSessionIDsByUserID f userID) (fun _ => ret []) ret.

(** The TTL [createSession] gives the session entry: the cache TTL, or the
    time until the session expires when that is positive and shorter. *)
Definition clamp_ttl (ttl until : Z) : Z :=
  if (0 <? until) && (until <? ttl) then until else ttl.

Definition cached_user_of (u : User) : CachedUser :=
  {| cu_email := u_email u; cu_role := u_role u;
     cu_is_active := u_is_active u; cu_is_blocked := u_is_blocked u |}.

Definition with_hash (h : string) (x : Session) : Session :=
  {| s_id := s_id x; s_user_id := s_user_id x; s_refresh_token_hash := h;
     s_is_active := s_is_active x; s_last_activity_at := s_last_activity_at x;
     s_expires_at := s_expires_at x; s_created_at := s_created_at x |}.

(** [Service.createSession]; [newID] is the id the store assigns. *)
Definition createSession (f : Faults) (newID : string) (user : User)
    (refreshLifetime now : Z) : M (Session * Token * Token) :=
  let session0 := {| s_id := EmptyString; s_user_id := u_id user; s_refresh_token_hash := EmptyString;
                     s_is_active := true; s_last_activity_at := now;
                     s_expires_at := now + refreshLifetime; s_created_at := now |} in
  let tempSessionID := "temp" in
  let _accessToken0 :=
    GenerateAccessToken (u_id user) (u_email user) (u_role user) tempSessionID now in
  let refreshToken0 :=
    GenerateRefreshToken (u_id user) tempSessionID refreshLifetime now in
  let session1 := with_hash (HashToken refreshToken0) session0 in
  session <- wrap "failed to create session" (CreateSession f newID session1) ;;
  let accessToken :=
    GenerateAccessToken (u_id user) (u_email user) (u_role user) (s_id session) now in
  let refreshToken :=
    GenerateRefreshToken (u_id user) (s_id session) refreshLifetime now in
  wrap "failed to update session"
    (UpdateSessionRefreshToken f (s_id session) (HashToken refreshToken) now) ;;;
  c <- has_cache ;;
  (if c
   then let ttl := clamp_ttl (cache_ttl cfg) (s_expires_at session - now) in
        cache_set_session (s_id session)
          {| cs_user_id := u_id user; cs_is_active := true;
             cs_expires_at := s_expires_at session |} ttl now ;;;
        cache_set_user (u_id user) (cached_user_of user) (cache_ttl cfg) now
   else ret tt) ;;;
  ret (session, accessToken, refreshToken).

Record LoginRequest := {
  lr_email : string;
  lr_password : string;
  lr_stay_signed_in : bool
}.

(** The [UserResponse] of a [LoginResponse] (timestamps left out). *)
Record UserResponse := {
  ur_id : string;
  ur_email : string;
  ur_role : string;
  ur_is_active : bool
}.

Definition user_response (u : User) : UserResponse :=
  {| ur_id := u_id u; ur_email := u_email u; ur_role := u_role u;
     ur_is_active := u_is_active u |}.

(** [Service.Login] *)
Definition Login (f : Faults) (newID : string) (now : Z) (req : LoginRequest)
    : M (UserResponse * Token * Token) :=
  user <- bind_or (GetUserByEmail f (lr_email req))
            (fun e => if err_is ErrNoRows e then throw ErrInvalidCredentials
                      else throw (ErrWrap "get user by email" e))
            ret ;;
  if negb (u_is_active user) then throw ErrInvalidCredentials else
  if u_is_blocked user then throw ErrInvalidCredentials else
  if negb (ComparePassword (u_password user) (lr_password req))
  then throw ErrInvalidCredentials else
  let refreshLifetime :=
    if lr_stay_signed_in req then stay_signed_in_lifetime cfg
    else refresh_token_lifetime cfg in
  r <- wrap "failed to create session"
         (createSession f newID user refreshLifetime now) ;;
  let '(_, accessToken, refreshToken) := r in
  ret (user_response user, accessToken, refreshToken).

(** [Service.Refresh] *)
Definition Refresh (f : Faults) (now : Z) (refreshToken : Token)
    : M (Token * Token) :=
  claims <- lift (ValidateRefreshToken now refreshToken) ;;
  let tokenHash := HashToken refreshToken in
  session <- bind_or (GetSessionByRefreshTokenHash f tokenHash)
               (fun _ => throw ErrSessionNotFound) ret ;;
  if negb (s_is_active session) then throw ErrSessionInactive else
  if s_expires_at session <? now then throw ErrSessionExpired else
  user <- wrap "failed to get user" (GetUserByID f (rc_user_id claims)) ;;
  if negb (u_is_active user) || u_is_blocked user
  then ignore (InvalidateSession f (s_id session)) ;;; throw ErrUserBlocked
  else
  let newAccessToken :=
    GenerateAccessToken (u_id user) (u_email user) (u_role user) (s_id session) now in
  let remainingTime := s_expires_at session - now in
  let newRefreshToken :=
    GenerateRefreshToken (u_id user) (s_id session) remainingTime now in
  let newTokenHash := HashToken newRefreshToken in
  wrap "failed to update session"
    (UpdateSessionRefreshToken f (s_id session) newTokenHash now) ;;;
  ret (newAccessToken, newRefreshToken).

(** [Service.Logout] *)
Definition Logout (f : Faults) (sessionID : string) : M unit :=
  wrap "failed to logout" (InvalidateSession f sessionID) ;;;
  cacheDelSession f sessionID.

(** [Service.LogoutAll] *)
Definition LogoutAll (f : Faults) (userID : string) : M unit :=
  sessionIDs <- active_ids_best_effort f userID ;;
  wrap "failed to logout all sessions" (InvalidateAllUserSessions f userID) ;;;
  mapM_ (cacheDelSession f) sessionIDs ;;;
  cacheDelUser f userID.

(** [Service.RequestPasswordReset]; [otp] and [rawToken] are the values
    [GenerateOTP] and [GenerateSecureToken] draw, [newID] the id the store
    assigns to the row. *)
Definition RequestPasswordReset (f : Faults) (newID otp rawToken : string)
    (now : Z) (email : string) : M unit :=
  bind_or (GetUserByEmail f email)
    (fun _ => ret tt)
    (fun user =>
       if f CGenerateOTP
       then throw (ErrWrap "failed to generate OTP" (ErrDb "crypto/rand")) else
       if f CGenerateToken
       then throw (ErrWrap "failed to generate token" (ErrDb "crypto/rand")) else
       let tokenHash := HashToken (Raw rawToken) in
       let resetToken := {| rt_id := newID; rt_user_id := u_id user;
                            rt_token_hash := tokenHash; rt_otp := otp;
                            rt_expires_at := now + password_reset_otp_lifetime cfg;
                            rt_used_at := None; rt_created_at := now |} in
       wrap "failed to create password reset token"
         (CreatePasswordResetToken f resetToken)).

Record PasswordResetVerifyRequest := {
  pv_email : string;
  pv_otp : string;
  pv_new_password : string
}.

(** [Service.VerifyPasswordReset]; [salt] is the salt bcrypt draws. *)
Definition VerifyPasswordReset (f : Faults) (salt : string) (now : Z)
    (req : PasswordResetVerifyRequest) : M unit :=
  token <- bind_or (GetPasswordResetToken f (pv_email req) (pv_otp req) now)
             (fun _ => throw ErrInvalidOTP) ret ;;
  sessionIDs <- active_ids_best_effort f (rt_user_id token) ;;
  hashedPassword <- wrap "failed to hash password"
                      (lift (HashPassword salt (pv_new_password req))) ;;
  wrap "failed to update password"
    (UpdateUserPassword f (rt_user_id token) hashedPassword now) ;;;
  wrap "failed to mark token as used"
    (MarkPasswordResetTokenAsUsed f (rt_id token) now) ;;;
  wrap "failed to invalidate sessions after password reset"
    (InvalidateAllUserSessions f (rt_user_id token)) ;;;
  mapM_ (cacheDelSession f) sessionIDs ;;;
  cacheDelUser f (rt_user_id token).

(** [Service.BlockUser] *)
Definition BlockUser (f : Faults) (now : Z) (userID blockedBy : string)
    : M unit :=
  sessionIDs <- active_ids_best_effort f userID ;;
  wrap "failed to block user" (RepoBlockUser f userID blockedBy now) ;;;
  wrap "failed to invalidate sessions" (InvalidateAllUserSessions f userID) ;;;
  mapM_ (cacheDelSession f) sessionIDs ;;;
  cacheDelUser f userID.

(** *** Authentication middleware *)

Inductive AppErrorKind := Authentication | Authorization.

(** [auth.UserContext] *)
Record UserContext := {
  ctx_id : string;
  ctx_email : string;
  ctx_role : string;
  ctx_session_id : string
}.

Inductive AuthOutcome :=
| Pass (ctx : UserContext)                 (* next.ServeHTTP *)
| Reject (kind : AppErrorKind) (msg : string).

(** [NewAuthMiddleware]: [cfg.Cache.TTL] when positive, one hour
    otherwise. *)
Definition mw_cache_ttl : Z :=
  if 0 <? cache_ttl cfg then cache_ttl cfg else 3600 * second.

(** The TTL the middleware gives a session entry it populates. *)
Definition mw_session_ttl (expiresAt now : Z) : Z :=
  if Z.eqb expiresAt zero_time then mw_cache_ttl
  else clamp_ttl mw_cache_ttl (expiresAt - now).

(** Session resolution from the store; [None] is "Invalid session". *)
Definition mw_session_from_store (f : Faults) (now : Z) (sessionID : string)
    : M (option string) :=
  bind_or (GetSessionByID f sessionID) (fun _ => ret None) (fun session =>
    if negb (s_is_active session) || (s_expires_at session <? now) then ret None
    else
      cache_set_session sessionID
        {| cs_user_id := s_user_id session; cs_is_active := s_is_active session;
           cs_expires_at := s_expires_at session |}
        (mw_session_ttl (s_expires_at session) now) now ;;;
      ret (Some (s_user_id session))).

(** Session resolution, cache first; the result is [sessionUserID]. *)
Definition mw_session (f : Faults) (now : Z) (sessionID : string)
    : M (option string) :=
  cs <- cache_get_session sessionID now ;;
  match cs with
  | Some c =>
      if negb (cs_is_active c)
         || (negb (Z.eqb (cs_expires_at c) zero_time) && (cs_expires_at c <? now))
      then ignore (cache_del_session f sessionID) ;;; ret None
      else if String.eqb (cs_user_id c) EmptyString then mw_session_from_store f now sessionID
      else ret (Some (cs_user_id c))
  | None => mw_session_from_store f now sessionID
  end.

(** User resolution, cache first; [None] is a store miss or failure. *)
Definition mw_user (f : Faults) (now : Z) (userID : string)
    : M (option CachedUser) :=
  cu <- cache_get_user userID now ;;
  match cu with
  | Some u => ret (Some u)
  | None =>
      bind_or (GetUserByID f userID) (fun _ => ret None) (fun user =>
        cache_set_user userID (cached_user_of user) mw_cache_ttl now ;;;
        ret (Some (cached_user_of user)))
  end.

(** [AuthMiddleware.Authenticate] on the extracted token ([Raw EmptyString] when
    neither the cookie nor the header carries one). *)
Definition token_is_empty (t : Token) : bool :=
  match t with Raw s => String.eqb s EmptyString | JWT _ _ _ => false end.

Definition Authenticate (f : Faults) (now : Z) (token : Token) : M AuthOutcome :=
  if token_is_empty token
  then ret (Reject Authentication "Missing authentication token") else
  match ValidateAccessToken now token with
  | Error ErrExpiredToken => ret (Reject Authentication "Token has expired")
  | Error _ => ret (Reject Authentication "Invalid authentication token")
  | Ok claims =>
      sessionUserID <- mw_session f now (ac_session_id claims) ;;
      match sessionUserID with
      | None => ret (Reject Authentication "Invalid session")
      | Some suid =>
          if negb (String.eqb suid EmptyString) && negb (String.eqb suid (ac_user_id claims))
          then ret (Reject Authentication "Invalid authentication token")
          else
            u <- mw_user f now (ac_user_id claims) ;;
            match u with
            | None => ret (Reject Authentication "Invalid authentication token")
            | Some cu =>
                if negb (cu_is_active cu) || cu_is_blocked cu
                then ret (Reject Authorization "User account is blocked or inactive")
                else ret (Pass {| ctx_id := ac_user_id claims; ctx_email := cu_email cu;
                                  ctx_role := cu_role cu;
                                  ctx_session_id := ac_session_id claims |})
            end
      end
  end.

(** *** Handler *)

Record Cookie := {
  ck_name : string;
  ck_value : Token;
  ck_path : string;
  ck_max_age : Z
}.

(** [int(d.Seconds())] *)
Definition go_int_seconds (d : Z) : Z := Z.quot d second.

(** [Handler.setAccessTokenCookie] *)
Definition setAccessTokenCookie (token : Token) : Cookie :=
  {| ck_name := "access_token"; ck_value := token; ck_path := "/";
     ck_max_age := go_int_seconds (access_token_lifetime cfg) |}.

(** [Handler.setRefreshTokenCookie] *)
Definition setRefreshTokenCookie (token : Token) : Cookie :=
  {| ck_name := "refresh_token"; ck_value := token; ck_path := "/v1/auth";
     ck_max_age := go_int_seconds (refresh_token_lifetime cfg) |}.

Inductive HttpResponse :=
| RespondJSON (status : Z) (cookies : list Cookie) (body : option (UserResponse * Token * Token))
| RespondAppError (kind : string) (msg : string).

(** [Handler.Login] after the body has been decoded. *)
Definition HandlerLogin (f : Faults) (newID : string) (now : Z)
    (req : LoginRequest) : M HttpResponse :=
  if String.eqb (lr_email req) EmptyString || String.eqb (lr_password req) EmptyString
  then ret (RespondAppError "validation" "Email and password are required") else
  bind_or (Login f newID now req)
    (fun e => if err_is ErrInvalidCredentials e
              then ret (RespondAppError "authentication" "Invalid email or password")
              else if err_is ErrUserNotActive e
              then ret (RespondAppError "authorization" "User account is not active")
              else if err_is ErrUserBlocked e
              then ret (RespondAppError "authorization" "User account has been blocked")
              else ret (RespondAppError "internal" EmptyString))
    (fun r => let '(response, accessToken, refreshToken) := r in
              ret (RespondJSON 200 [setAccessTokenCookie accessToken;
                                    setRefreshTokenCookie refreshToken]
                               (Some (response, accessToken, refreshToken)))).

(** The [exp] claim of a signed token. *)
Definition token_exp (t : Token) : option Z :=
  match t with JWT _ c _ => Some (cl_exp c) | Raw _ => None end.

(** *** Operations beyond login, refresh, logout and password reset *)

(** Store calls of the operations below; their faults are a second oracle. *)
Inductive ExtCall := CCreateUser | CUnblockUser | CGetUserSessions.

Definition ExtFaults := ExtCall -> bool.

Definition no_ext_faults : ExtFaults := fun _ => false.

(** The row [Repository.CreateUser] inserts: role [customer] (role id
    [...0004]), active, not blocked.  First and last name are left out like
    in [User]. *)
Definition new_user (newID email : string) (h : BcryptHash) (now : Z) : User :=
  {| u_id := newID; u_email := email; u_password := h; u_role := "customer";
     u_is_active := true; u_is_blocked := false; u_blocked_at := None;
     u_blocked_by := None; u_updated_at := now; u_deleted := false |}.

(** [Repository.CreateUser]: [INSERT ... RETURNING id]; [newID] is the
    [gen_random_uuid()] the store draws.  The primary key and the [UNIQUE]
    email constraint hold over every row, soft-deleted ones included. *)
Definition CreateUser (g : ExtFaults) (newID email : string) (h : BcryptHash)
    (now : Z) : M string :=
  fun st =>
    if g CCreateUser
    then (Error (ErrWrap "failed to create user" (ErrDb "store")), st)
    else if existsb (fun u => String.eqb (u_email u) email || String.eqb (u_id u) newID)
                    (users (db st))
    then (Error (ErrWrap "failed to create user" (ErrDb "unique_violation")), st)
    else (Ok newID,
          {| db := with_users (db st) (users (db st) ++ [new_user newID email h now]);
             cache := cache st |}).

Definition set_unblocked (now : Z) (u : User) : User :=
  {| u_id := u_id u; u_email := u_email u; u_password := u_password u;
     u_role := u_role u; u_is_active := u_is_active u; u_is_blocked := false;
     u_blocked_at := None; u_blocked_by := None;
     u_updated_at := now; u_deleted := u_deleted u |}.

(** [Repository.UnblockUser] *)
Definition RepoUnblockUser (g : ExtFaults) (userID : string) (now : Z) : M unit :=
  fun st =>
    if g CUnblockUser
    then (Error (ErrWrap "failed to unblock user" (ErrDb "store")), st)
    else (Ok tt, {| db := update_user userID (set_unblocked now) (db st);
                    cache := cache st |}).

(** [ORDER BY last_activity_at DESC] *)
Definition last_activity_desc (a b : Session) : Prop :=
  s_last_activity_at b <= s_last_activity_at a.

Global Instance last_activity_desc_dec : RelDecision last_activity_desc.
Proof. intros a b. unfold last_activity_desc. apply _. Defined.



(** [RegisterRequest] (first and last name left out). *)
Record RegisterRequest := {
  rg_email : string;
  rg_password : string
}.

(** [Service.Register]; [newID] is the id the store assigns, [salt] the
    salt bcrypt draws.  The lookup error is discarded
    ([existingUser, _ := ...]). *)
Definition Register (f : Faults) (g : ExtFaults) (newID salt : string) (now : Z)
    (req : RegisterRequest) : M UserResponse :=
  bind_or (GetUserByEmail f (rg_email req))
    (fun _ =>
       hashedPassword <- wrap "failed to hash password"
                           (lift (HashPassword salt (rg_password req))) ;;
       userID <- wrap "failed to create user"
                   (CreateUser g newID (rg_email req) hashedPassword now) ;;
       user <- wrap "failed to get created user" (GetUserByID f userID) ;;
       ret (user_response user))
    (fun _ => throw ErrEmailAlreadyExists).

Record ChangePasswordRequest := {
  cp_current_password : string;
  cp_new_password : string
}.

(** [Service.ChangePassword]; [salt] is the salt bcrypt draws. *)
Definition ChangePassword (f : Faults) (salt : string) (now : Z) (userID : string)
    (req : ChangePasswordRequest) : M unit :=
  user <- wrap "failed to get user" (GetUserByID f userID) ;;
  if negb (ComparePassword (u_password user) (cp_current_password req))
  then throw ErrInvalidCredentials else
  hashedPassword <- wrap "failed to hash password"
                      (lift (HashPassword salt (cp_new_password req))) ;;
  wrap "failed to update password" (UpdateUserPassword f userID hashedPassword now).

(** [Service.UnblockUser] *)
Definition UnblockUser (f : Faults) (g : ExtFaults) (now : Z) (userID : string)
    : M unit :=
  wrap "failed to unblock user" (RepoUnblockUser g userID now) ;;;
  cacheDelUser f userID.




(** [Service.DeleteSession]; the ownership error is a plain
    [errors.New] value. *)
Definition DeleteSession (f : Faults) (sessionID userID : string) : M unit :=
  session <- bind_or (GetSessionByID f sessionID) (fun _ => throw ErrSessionNotFound) ret ;;
  if negb (String.eqb (s_user_id session) userID)
  then throw (ErrDb "unauthorized to delete this session") else
  wrap "failed to delete session" (InvalidateSession f sessionID) ;;;
  cacheDelSession f sessionID.

(* ------------------------------------------------------------------ *)
(** ** Concrete instances used by the examples *)

(** A stand-in for SHA-256 that keeps the fields of a token apart. *)
Definition hash_ex (t : Token) : string :=
  match t with
  | JWT alg c key =>
      "jwt(" ++ alg ++ "," ++ cl_user_id c ++ "," ++ cl_session_id c ++ ","
      ++ pretty (cl_iat c) ++ "," ++ pretty (cl_exp c) ++ "," ++ key ++ ")"
  | Raw s => "raw(" ++ s ++ ")"
  end.

(** A stand-in for the Blowfish core that keeps salt and key bytes. *)
Definition eks_ex (cost : Z) (salt : string) (ks : list ascii) : string :=
  salt ++ "$" ++ string_of_list_ascii ks.

(** The defaults of [loadAuthConfig] and [loadCacheConfig] (cache on). *)
Definition cfg_ex : Config :=
  {| jwt_secret := "secret"; jwt_issuer := "go-rest-api-poc";
     audience := "go-rest-api-poc";
     access_token_lifetime := 15 * 60 * second;
     refresh_token_lifetime := 168 * 3600 * second;
     stay_signed_in_lifetime := 720 * 3600 * second;
     password_reset_otp_lifetime := 15 * 60 * second;
     cache_ttl := 3600 * second |}.

Definition t_ex : Z := 1760000000 * second.

Definition owner_ex : User :=
  {| u_id := "u1"; u_email := "owner@example.com";
     u_password := {| bh_cost := bcrypt_default_cost; bh_salt := "salt";
                      bh_hash := eks_ex bcrypt_default_cost "salt"
                                   (key_stream "password123") |};
     u_role := "owner"; u_is_active := true; u_is_blocked := false;
     u_blocked_at := None; u_blocked_by := None; u_updated_at := 0;
     u_deleted := false |}.

Definition empty_cache : CacheStore := {| c_sessions := ∅; c_users := ∅ |}.

Definition st_ex : State :=
  {| db := {| users := [owner_ex]; sessions := []; reset_tokens := [] |};
     cache := Some empty_cache |}.

Definition login_ex (stay : bool) : LoginRequest :=
  {| lr_email := "owner@example.com"; lr_password := "password123";
     lr_stay_signed_in := stay |}.

End Model.

(* ------------------------------------------------------------------ *)
(** ** Scenarios *)

(** Login, then two refreshes that both present the refresh token Login
    returned, one and two microseconds later. *)
Definition refresh_twice_ex : M (Token * Token * Token) :=
  r <- Login hash_ex eks_ex cfg_ex no_faults "s1" t_ex (login_ex false) ;;
  let '(_, _, tok0) := r in
  r1 <- Refresh hash_ex cfg_ex no_faults (t_ex + 1000) tok0 ;;
  r2 <- Refresh hash_ex cfg_ex no_faults (t_ex + 2000) tok0 ;;
  ret (tok0, snd r1, snd r2).

(** A store holding one active session ["s1"] of [owner_ex] that expires at
    [E], and an access token for it minted a minute before [t_ex]. *)
Definition session_ex (E : Z) : Session :=
  {| s_id := "s1"; s_user_id := "u1"; s_refresh_token_hash := EmptyString;
     s_is_active := true; s_last_activity_at := t_ex - 60 * second;
     s_expires_at := E; s_created_at := t_ex - 60 * second |}.

Definition st_session_ex (E : Z) : State :=
  {| db := {| users := [owner_ex]; sessions := [session_ex E]; reset_tokens := [] |};
     cache := Some empty_cache |}.

Definition access_ex : Token :=
  GenerateAccessToken cfg_ex "u1" "owner@example.com" "owner" "s1" (t_ex - 60 * second).

(** The deadline of the cache entry of a session, if any. *)
Definition session_deadline (sessionID : string) (st : State) : option Z :=
  match cache st with
  | Some c => option_map snd (c_sessions c !! sessionID)
  | None => None
  end.

(** A password with a NUL byte, ["a\x00a"], and one of 73 bytes. *)
Definition nul_pw_ex : string :=
  String "a"%char (String Ascii.zero (String "a"%char EmptyString)).

Definition long_pw_ex : string := string_of_list_ascii (repeat "a"%char 73).

(** The user entries of the cache, if there is a cache. *)
Definition users_cache (st : State) : option (gmap string (CachedUser * Z)) :=
  option_map c_users (cache st).

(** The store holds user [uid] blocked or inactive (or holds no such
    user), and so does every cache entry for [uid], live or not. *)
Definition user_locked_out (uid : string) (st : State) : Prop :=
  (forall u, user_by_id uid (db st) = Some u ->
     u_is_blocked u = true \/ u_is_active u = false) /\
  (forall c v d, cache st = Some c -> c_users c !! uid = Some (v, d) ->
     cu_is_blocked v = true \/ cu_is_active v = false).

(** A sequence of requests through the middleware, each with its own
    faults, clock and token. *)
Fixpoint authenticate_all cfg (reqs : list (Faults * Z * Token)) : M (list AuthOutcome) :=
  match reqs with
  | [] => ret []
  | (f, now, tok) :: rest =>
      o <- Authenticate cfg f now tok ;;
      os <- authenticate_all cfg rest ;;
      ret (o :: os)
  end.

(** Blocking with a failing session-id query and a failing cache [DelUser]:
    both are best effort, so [BlockUser] still succeeds. *)
Definition f_stale : Faults :=
  fun c => match c with CGetActiveIds | CCacheDelUser => true | _ => false end.

(** A request that fills the cache, a block of its user, a second request
    with the same access token. *)
Definition block_stale_ex : M (AuthOutcome * AuthOutcome) :=
  o1 <- Authenticate cfg_ex no_faults t_ex access_ex ;;
  BlockUser f_stale (t_ex + second) "u1" "admin" ;;;
  o2 <- Authenticate cfg_ex no_faults (t_ex + 2 * second) access_ex ;;
  ret (o1, o2).

Definition st_live_ex : State := st_session_ex (t_ex + 168 * 3600 * second).

Definition reqs_ex : list (Faults * Z * Token) :=
  [(no_faults, t_ex + 2 * second, access_ex); (f_stale, t_ex + 3 * second, access_ex)].

(** A login with a wrong password. *)
Definition login_wrong_ex : LoginRequest :=
  {| lr_email := "owner@example.com"; lr_password := "password124";
     lr_stay_signed_in := false |}.

(** The state and the refresh token after a successful login. *)
Definition st_logged_in_ex : State :=
  snd (Login hash_ex eks_ex cfg_ex no_faults "s1" t_ex (login_ex false) st_ex).

Definition refresh_tok_ex : Token :=
  match fst (Login hash_ex eks_ex cfg_ex no_faults "s1" t_ex (login_ex false) st_ex) with
  | Ok (_, _, r) => r
  | Error _ => Raw EmptyString
  end.

(** The state after a logout of ["s1"]. *)
Definition st_logged_out_ex : State :=
  snd (Logout no_faults "s1" st_live_ex).

(** A pending password reset of [owner_ex], and a verification for it in a
    run whose [MarkPasswordResetTokenAsUsed] fails. *)
Definition reset_ex : ResetToken :=
  {| rt_id := "r1"; rt_user_id := "u1"; rt_token_hash := "h"; rt_otp := "123456";
     rt_expires_at := t_ex + 15 * 60 * second; rt_used_at := None;
     rt_created_at := t_ex |}.

Definition st_reset_ex : State :=
  {| db := {| users := [owner_ex]; sessions := [session_ex (t_ex + 3600 * second)];
              reset_tokens := [reset_ex] |};
     cache := Some empty_cache |}.

Definition verify_ex : PasswordResetVerifyRequest :=
  {| pv_email := "owner@example.com"; pv_otp := "123456";
     pv_new_password := "newpassword" |}.

Definition f_mark_used : Faults :=
  fun c => match c with CMarkUsed => true | _ => false end.

Definition new_hash_ex : BcryptHash :=
  {| bh_cost := bcrypt_default_cost; bh_salt := "salt2";
     bh_hash := eks_ex bcrypt_default_cost "salt2" (key_stream "newpassword") |}.

(** The login handler with "stay signed in" set. *)
Definition handler_login_stay_ex : M HttpResponse :=
  HandlerLogin hash_ex eks_ex cfg_ex no_faults "s1" t_ex (login_ex true).


(** A refresh token for session ["s1"], minted with [access_ex]. *)
Definition refresh_ex : Token :=
  GenerateRefreshToken cfg_ex "u1" "s1" (168 * 3600 * second) (t_ex - 60 * second).

Definition register_ex : RegisterRequest :=
  {| rg_email := "new@example.com"; rg_password := "password456" |}.

Definition register_owner_ex : RegisterRequest :=
  {| rg_email := "owner@example.com"; rg_password := "password456" |}.

Definition change_ex : ChangePasswordRequest :=
  {| cp_current_password := "password123"; cp_new_password := "newpassword" |}.

Definition change_wrong_ex : ChangePasswordRequest :=
  {| cp_current_password := "password124"; cp_new_password := "newpassword" |}.

(** The logged-in state with [owner_ex] blocked in the store. *)
Definition st_blocked_ex : State :=
  {| db := update_user "u1" (set_blocked "admin" t_ex) (db st_logged_in_ex);
     cache := cache st_logged_in_ex |}.

(** [st_live_ex] without a cache. *)
Definition st_nocache_ex : State := {| db := db st_live_ex; cache := None |}.

(** Session [sid] is revoked: every store row with that id is inactive,
    and so is every cache entry for it, live or not. *)
Definition session_revoked (sid : string) (st : State) : Prop :=
  (forall x, In x (sessions (db st)) -> s_id x = sid -> s_is_active x = false) /\
  (forall c v d, cache st = Some c -> c_sessions c !! sid = Some (v, d) ->
     cs_is_active v = false).

(* ------------------------------------------------------------------ *)
(** ** Helper lemmas *)

Lemma with_sessions_id (s : Store) : with_sessions s (sessions s) = s.
Proof. by destruct s. Qed.

Lemma with_users_id (s : Store) : with_users s (users s) = s.
Proof. by destruct s. Qed.

Lemma set_inactive_id (x : Session) : s_is_active x = false -> set_inactive x = x.
Proof. destruct x; simpl; intros ->; reflexivity. Qed.

(** Mapping a conditional update that is the identity on the selected rows
    leaves the table as it is. *)
Lemma map_cond_id {A} (p : A -> bool) (g : A -> A) (l : list A) :
  (forall x, In x l -> p x = true -> g x = x) ->
  map (fun x => if p x then g x else x) l = l.
Proof.
  induction l as [|y l IH]; intros Hg; simpl; [done|].
  rewrite IH; [|intros; apply Hg; simpl; auto].
  destruct (p y) eqn:Hp; [rewrite (Hg y); simpl; auto|]; done.
Qed.

(** [find] after a conditional update of the rows it selects. *)
Lemma find_map_cond {A} (p : A -> bool) (g : A -> A) (l : list A) :
  (forall x, p (g x) = p x) ->
  find p (map (fun x => if p x then g x else x) l) = option_map g (find p l).
Proof.
  intros Hpg. induction l as [|y l IH]; simpl; [done|].
  destruct (p y) eqn:Hp; simpl; [by rewrite Hpg, Hp|by rewrite Hp].
Qed.

(* ------------------------------------------------------------------ *)
(** ** Login *)

(** C2: when the email matches no user, or the user found is inactive, or
    blocked, or the password does not match the stored bcrypt hash, [Login]
    returns the very same [ErrInvalidCredentials] value and leaves the store
    and the cache exactly as they were, so nothing tells the four causes
    apart (the lookup itself must not have failed in the store). *)
Theorem Login_failures_indistinguishable HashToken eks cfg (f : Faults)
    (newID : string) (now : Z) (req : LoginRequest) (st : State) :
  f CGetUserByEmail = false ->
  (user_by_email (lr_email req) (db st) = None \/
   exists u, user_by_email (lr_email req) (db st) = Some u /\
     (u_is_active u = false \/ u_is_blocked u = true \/
      ComparePassword eks (u_password u) (lr_password req) = false)) ->
  Login HashToken eks cfg f newID now req st = (Error ErrInvalidCredentials, st).
Proof.
  intros Hf Hcase. unfold Login, bind, bind_or, GetUserByEmail, db_read.
  rewrite Hf.
  destruct Hcase as [Hnone | (u & Hu & Hwhy)].
  - rewrite Hnone. reflexivity.
  - rewrite Hu. unfold ret, throw.
    destruct Hwhy as [Ha | [Hb | Hc]].
    + rewrite Ha. reflexivity.
    + destruct (u_is_active u); simpl; [rewrite Hb|]; reflexivity.
    + destruct (u_is_active u); simpl; [|reflexivity].
      destruct (u_is_blocked u); simpl; [reflexivity|].
      rewrite Hc. reflexivity.
Qed.

Lemma Login_failures_indistinguishable_witness :
  Login hash_ex eks_ex cfg_ex no_faults "s1" t_ex login_wrong_ex st_ex
  = (Error ErrInvalidCredentials, st_ex).
Proof.
  apply Login_failures_indistinguishable; [reflexivity|].
  right. exists owner_ex. split; [reflexivity|]. right. right. vm_compute. reflexivity.
Defined.


(* ------------------------------------------------------------------ *)
(** ** Password reset request *)

(** C5: for an email that matches no user, [RequestPasswordReset] returns
    success and leaves store and cache untouched (no reset-token row); for
    an email that matches a user the call, when none of its steps fails,
    returns that same success value. *)
Theorem RequestPasswordReset_unknown_email HashToken cfg (f : Faults)
    (newID otp rawToken : string) (now : Z) (email : string) (st : State) :
  user_by_email email (db st) = None ->
  RequestPasswordReset HashToken cfg f newID otp rawToken now email st = (Ok tt, st) /\
  (forall f' newID' otp' rawToken' now' email' st' u,
     user_by_email email' (db st') = Some u ->
     f' CGetUserByEmail = false -> f' CGenerateOTP = false ->
     f' CGenerateToken = false -> f' CCreateResetToken = false ->
     fst (RequestPasswordReset HashToken cfg f' newID' otp' rawToken' now' email' st')
     = Ok tt).
Proof.
  intros Hnone. split.
  - unfold RequestPasswordReset, bind_or, GetUserByEmail, db_read.
    destruct (f CGetUserByEmail); [reflexivity|]. rewrite Hnone. reflexivity.
  - intros f' newID' otp' rawToken' now' email' st' u Hu H1 H2 H3 H4.
    unfold RequestPasswordReset, bind_or, GetUserByEmail, db_read.
    rewrite H1, Hu, H2, H3.
    unfold wrap, catch, CreatePasswordResetToken, db_write. rewrite H4.
    reflexivity.
Qed.

Lemma RequestPasswordReset_unknown_email_witness :
  RequestPasswordReset hash_ex cfg_ex no_faults "r1" "123456" "raw" t_ex
    "nobody@example.com" st_ex = (Ok tt, st_ex) /\
  fst (RequestPasswordReset hash_ex cfg_ex no_faults "r1" "123456" "raw" t_ex
         "owner@example.com" st_ex) = Ok tt.
Proof.
  destruct (RequestPasswordReset_unknown_email hash_ex cfg_ex no_faults "r1" "123456"
              "raw" t_ex "nobody@example.com" st_ex eq_refl) as [H1 H2].
  split; [exact H1|].
  apply (H2 no_faults "r1" "123456" "raw" t_ex "owner@example.com" st_ex owner_ex);
    reflexivity.
Defined.


(* ------------------------------------------------------------------ *)
(** ** Logout *)

Lemma cacheDelSession_idem (f : Faults) (sid : string) (st : State) :
  cacheDelSession f sid (snd (cacheDelSession f sid st))
  = (Ok tt, snd (cacheDelSession f sid st)).
Proof.
  destruct st as [d [c|]]; unfold cacheDelSession, bind, has_cache, ret; simpl;
    [|reflexivity].
  destruct (String.eqb sid EmptyString); simpl; [reflexivity|].
  unfold ignore, cache_del_session, throw, map_cache, modify.
  destruct (f CCacheDelSession); simpl; [reflexivity|].
  rewrite delete_delete_eq. reflexivity.
Qed.

Lemma cacheDelSession_ok (f : Faults) (sid : string) (st : State) :
  fst (cacheDelSession f sid st) = Ok tt /\ db (snd (cacheDelSession f sid st)) = db st.
Proof.
  destruct st as [d [c|]]; unfold cacheDelSession, bind, has_cache, ret; simpl;
    [|auto].
  destruct (String.eqb sid EmptyString); simpl; [auto|].
  unfold ignore, cache_del_session, throw, map_cache, modify.
  destruct (f CCacheDelSession); simpl; auto.
Qed.

(** C7: [Logout] on a session id whose rows are all already inactive
    returns success, leaves the store as it was, and a second [Logout]
    changes nothing more; no [Logout] ever reports [ErrSessionNotFound]. *)
Theorem Logout_idempotent (f : Faults) (sid : string) (st : State) :
  f CInvalidate = false ->
  (forall x, In x (sessions (db st)) -> s_id x = sid -> s_is_active x = false) ->
  fst (Logout f sid st) = Ok tt /\
  db (snd (Logout f sid st)) = db st /\
  Logout f sid (snd (Logout f sid st)) = (Ok tt, snd (Logout f sid st)) /\
  (forall f' sid' st' e, fst (Logout f' sid' st') = Error e ->
     err_is ErrSessionNotFound e = false).
Proof.
  intros Hf Hinactive.
  assert (Hdb : update_sessions (fun x => String.eqb (s_id x) sid) set_inactive (db st)
                = db st).
  { unfold update_sessions. rewrite map_cond_id; [apply with_sessions_id|].
    intros x Hin Hp. apply String.eqb_eq in Hp. apply set_inactive_id; auto. }
  assert (Hrun : forall st0, db st0 = db st ->
            Logout f sid st0 = cacheDelSession f sid st0).
  { intros [d c] Hd. simpl in Hd. subst d.
    unfold Logout, wrap, catch, bind, InvalidateSession, db_write. rewrite Hf.
    simpl. rewrite Hdb. reflexivity. }
  rewrite (Hrun st eq_refl).
  destruct (cacheDelSession_ok f sid st) as [Hok Hd].
  split; [exact Hok|]. split; [exact Hd|]. split.
  - rewrite (Hrun _ Hd). apply cacheDelSession_idem.
  - intros f' sid' st' e He.
    unfold Logout, wrap, catch, bind, InvalidateSession, db_write in He.
    destruct (f' CInvalidate); simpl in He.
    + inversion He. reflexivity.
    + destruct (cacheDelSession_ok f' sid'
                  {| db := update_sessions (fun x => String.eqb (s_id x) sid') set_inactive (db st');
                     cache := cache st' |}) as [Hc _].
      rewrite Hc in He. discriminate.
Qed.

Lemma Logout_idempotent_witness :
  fst (Logout no_faults "s1" st_logged_out_ex) = Ok tt /\
  db (snd (Logout no_faults "s1" st_logged_out_ex)) = db st_logged_out_ex /\
  Logout no_faults "s1" (snd (Logout no_faults "s1" st_logged_out_ex))
    = (Ok tt, snd (Logout no_faults "s1" st_logged_out_ex)) /\
  (forall f' sid' st' e, fst (Logout f' sid' st') = Error e ->
     err_is ErrSessionNotFound e = false).
Proof.
  apply Logout_idempotent; [reflexivity|].
  intros x Hx _. vm_compute in Hx. destruct Hx as [<-|[]]. reflexivity.
Defined.


(* ------------------------------------------------------------------ *)
(** ** Password reset verification *)

Lemma active_ids_best_effort_state (f : Faults) (uid : string) (st : State) :
  exists ids, active_ids_best_effort f uid st = (Ok ids, st).
Proof.
  unfold active_ids_best_effort, bind_or, GetActiveSessionIDsByUserID, db_read, ret.
  destruct (f CGetActiveIds); eauto.
Qed.

Lemma users_user_by_id (s s' : Store) (uid : string) :
  users s' = users s -> user_by_id uid s' = user_by_id uid s.
Proof. unfold user_by_id. intros ->. reflexivity. Qed.

Lemma user_by_id_update (uid : string) (g : User -> User) (s : Store) :
  (forall u, u_id (g u) = u_id u /\ u_deleted (g u) = u_deleted u) ->
  user_by_id uid (update_user uid g s) = option_map g (user_by_id uid s).
Proof.
  intros Hg. unfold user_by_id, update_user, with_users. simpl.
  apply find_map_cond. intros u. destruct (Hg u) as [-> ->]. reflexivity.
Qed.

(** C10: [VerifyPasswordReset] writes the new password hash before it marks
    the reset token used and before it invalidates the sessions.  When the
    password update succeeds and one of those later steps fails, the call
    returns an error while the user table already holds the new hash. *)
Theorem VerifyPasswordReset_not_atomic eks (f : Faults) (salt : string) (now : Z)
    (req : PasswordResetVerifyRequest) (st : State) (t : ResetToken) (h : BcryptHash) :
  f CGetResetToken = false ->
  reset_token_for (pv_email req) (pv_otp req) now (db st) = Some t ->
  HashPassword eks salt (pv_new_password req) = Ok h ->
  f CUpdatePassword = false ->
  (f CMarkUsed = true \/ f CInvalidateAll = true) ->
  (exists e, fst (VerifyPasswordReset eks f salt now req st) = Error e) /\
  users (db (snd (VerifyPasswordReset eks f salt now req st)))
    = users (update_user (rt_user_id t) (set_password h now) (db st)) /\
  (forall u, user_by_id (rt_user_id t) (db st) = Some u ->
     user_by_id (rt_user_id t) (db (snd (VerifyPasswordReset eks f salt now req st)))
     = Some (set_password h now u)).
Proof.
  intros Hget Ht Hh Hupd Hfail.
  assert (Hshape :
    (exists e, fst (VerifyPasswordReset eks f salt now req st) = Error e) /\
    users (db (snd (VerifyPasswordReset eks f salt now req st)))
      = users (update_user (rt_user_id t) (set_password h now) (db st))).
  { destruct (active_ids_best_effort_state f (rt_user_id t) st) as [ids Hids].
    unfold VerifyPasswordReset, bind, bind_or, GetPasswordResetToken, db_read.
    rewrite Hget, Ht. unfold ret at 1. cbv beta iota. rewrite Hids.
    unfold wrap, catch, lift. rewrite Hh.
    unfold ret, UpdateUserPassword, db_write. rewrite Hupd. simpl.
    unfold MarkPasswordResetTokenAsUsed, db_write.
    destruct Hfail as [Hm | Hi].
    - rewrite Hm. simpl. rewrite ?Hids. eauto.
    - destruct (f CMarkUsed); simpl; rewrite ?Hids; [eauto|].
      unfold InvalidateAllUserSessions, db_write. rewrite Hi. simpl.
      rewrite ?Hids. eauto. }
  destruct Hshape as [Herr Husers]. split; [exact Herr|]. split; [exact Husers|].
  intros u Hu. rewrite (users_user_by_id _ _ _ Husers).
  rewrite user_by_id_update; [by rewrite Hu|].
  intros v. destruct v; split; reflexivity.
Qed.

Lemma VerifyPasswordReset_not_atomic_witness :
  (exists e, fst (VerifyPasswordReset eks_ex f_mark_used "salt2" t_ex verify_ex st_reset_ex)
             = Error e) /\
  users (db (snd (VerifyPasswordReset eks_ex f_mark_used "salt2" t_ex verify_ex st_reset_ex)))
    = users (update_user "u1" (set_password new_hash_ex t_ex) (db st_reset_ex)) /\
  (forall u, user_by_id "u1" (db st_reset_ex) = Some u ->
     user_by_id "u1"
       (db (snd (VerifyPasswordReset eks_ex f_mark_used "salt2" t_ex verify_ex st_reset_ex)))
     = Some (set_password new_hash_ex t_ex u)).
Proof.
  apply (VerifyPasswordReset_not_atomic eks_ex f_mark_used "salt2" t_ex verify_ex
           st_reset_ex reset_ex new_hash_ex);
    [reflexivity|vm_compute; reflexivity|vm_compute; reflexivity|reflexivity|left; reflexivity].
Defined.


(* ------------------------------------------------------------------ *)
(** ** Refresh *)

(** Case analysis on a run of a monadic computation: split every [match]
    in hypothesis [H], dropping the branches that contradict it. *)
Ltac split_run H :=
  repeat (cbn [fst snd] in H;
          match type of H with
          | context [match ?x with _ => _ end] =>
              lazymatch x with
              | context [match _ with _ => _ end] => fail
              | _ => let E := fresh "E" in destruct x eqn:E
              end
          end; try discriminate H).

(** C4: after a successful [Refresh], the new refresh token is the one
    [GenerateRefreshToken] mints with lifetime [expires_at - now] for the
    session found by the presented token's hash, so its [exp] claim is the
    session's stored expiry (in Unix seconds); and no session's [expires_at]
    changes. *)
Theorem Refresh_preserves_session_expiry HashToken cfg (f : Faults) (now : Z)
    (tok : Token) (st st' : State) (a r : Token) :
  Refresh HashToken cfg f now tok st = (Ok (a, r), st') ->
  exists s u,
    session_by_hash (HashToken tok) (db st) = Some s /\
    r = GenerateRefreshToken cfg (u_id u) (s_id s) (s_expires_at s - now) now /\
    token_exp r = Some (unix (s_expires_at s)) /\
    map s_expires_at (sessions (db st')) = map s_expires_at (sessions (db st)).
Proof.
  intros H.
  unfold Refresh, bind, bind_or, lift, ret, throw, wrap, catch, ignore,
    GetSessionByRefreshTokenHash, GetUserByID, UpdateSessionRefreshToken,
    InvalidateSession, db_read, db_write in H.
  split_run H.
  injection H as <- <- <-. simpl.
  match goal with
  | Hs : session_by_hash _ _ = Some ?s, Hu : user_by_id _ _ = Some ?u |- _ =>
      exists s, u
  end.
  split; [reflexivity|]. split; [reflexivity|]. split.
  - f_equal. f_equal. lia.
  - rewrite map_map. apply map_ext. intros x.
    destruct (String.eqb _ _); [destruct x|]; reflexivity.
Qed.

Lemma Refresh_preserves_session_expiry_witness :
  match Refresh hash_ex cfg_ex no_faults (t_ex + 60 * second) refresh_tok_ex
          st_logged_in_ex with
  | (Ok (a, r), st') =>
      exists s u,
        session_by_hash (hash_ex refresh_tok_ex) (db st_logged_in_ex) = Some s /\
        r = GenerateRefreshToken cfg_ex (u_id u) (s_id s)
              (s_expires_at s - (t_ex + 60 * second)) (t_ex + 60 * second) /\
        token_exp r = Some (unix (s_expires_at s)) /\
        map s_expires_at (sessions (db st')) = map s_expires_at (sessions (db st_logged_in_ex))
  | (Error _, _) => False
  end.
Proof.
  destruct (Refresh hash_ex cfg_ex no_faults (t_ex + 60 * second) refresh_tok_ex
              st_logged_in_ex) as [[[a r]|e] st'] eqn:E.
  - exact (Refresh_preserves_session_expiry hash_ex cfg_ex no_faults _ _ _ _ _ _ E).
  - vm_compute in E. discriminate E.
Defined.


(** C3 (Refresh rotation).  Two refreshes in the same second mint the same
    refresh token: the hash stored by the rotation is the hash of the old
    token, and a second Refresh presenting the old token succeeds. *)
Lemma Refresh_same_second_keeps_old_token :
  match refresh_twice_ex st_ex with
  | (Ok (tok0, tok1, _), st) =>
      tok1 = tok0 /\
      option_map s_id (session_by_hash (hash_ex tok0) (db st)) = Some "s1"
  | (Error _, _) => False
  end.
Proof. vm_compute. split; reflexivity. Qed.

(** C8 (login cookies).  With stay_signed_in set, Login issues a refresh
    token that lives 720 hours, but the refresh cookie's Max-Age is the
    standard 168 hours (604800 s); the access cookie's Max-Age is the access
    lifetime (900 s). *)
Lemma HandlerLogin_stay_cookie_standard_lifetime :
  match fst (handler_login_stay_ex st_ex) with
  | Ok (RespondJSON 200 [ca; cr] (Some (_, _, r))) =>
      ck_max_age ca = 900 /\ ck_max_age cr = 604800 /\
      go_int_seconds (stay_signed_in_lifetime cfg_ex) = 2592000 /\
      token_exp r = Some (unix (t_ex + stay_signed_in_lifetime cfg_ex))
  | _ => False
  end.
Proof. vm_compute. repeat split. Qed.

(** C6 (counterexample).  A request at the very instant [t_ex] at which its
    session expires passes the middleware ([now.After(expiresAt)] is false),
    and the session entry it populates gets the full cache TTL of one hour:
    the remaining time is 0, not positive, so no clamping happens and the
    entry outlives the session. *)
Lemma session_cache_entry_outlives_session :
  match Authenticate cfg_ex no_faults t_ex access_ex (st_session_ex t_ex) with
  | (Ok (Pass _), st') =>
      session_deadline "s1" st' = Some (t_ex + 3600 * second) /\
      t_ex < t_ex + 3600 * second
  | _ => False
  end.
Proof. vm_compute. split; reflexivity. Qed.

Lemma clamp_ttl_pos ttl u : 0 < ttl -> 0 < clamp_ttl ttl u.
Proof. unfold clamp_ttl. destruct (0 <? u) eqn:E1, (u <? ttl) eqn:E2; simpl; lia. Qed.

Lemma clamp_ttl_le ttl u : 0 < u -> clamp_ttl ttl u <= u.
Proof. unfold clamp_ttl. destruct (0 <? u) eqn:E1, (u <? ttl) eqn:E2; simpl; lia. Qed.

(** C6 (amended).  The TTL of a session entry is [clamp_ttl]: the minimum
    of the cache TTL and the time until the session's [expires_at] when
    that time is positive, the full cache TTL otherwise.  The session entry
    [createSession] writes, and the one the middleware populates (with a
    clock past Go's zero time), expires at [now + clamp_ttl ...], hence no
    later than the session itself whenever the session had not reached its
    expiry at [now]. *)
Theorem session_cache_ttl_clamped :
  (forall ttl until, 0 < until -> clamp_ttl ttl until = Z.min ttl until) /\
  (forall ttl until, until <= 0 -> clamp_ttl ttl until = ttl) /\
  (forall HashToken cfg f newID user lifetime now st sess a r st',
     createSession HashToken cfg f newID user lifetime now st = (Ok (sess, a, r), st') ->
     cache st <> None -> 0 < cache_ttl cfg ->
     session_deadline (s_id sess) st' =
       Some (now + clamp_ttl (cache_ttl cfg) (s_expires_at sess - now)) /\
     (now < s_expires_at sess ->
        now + clamp_ttl (cache_ttl cfg) (s_expires_at sess - now) <= s_expires_at sess)) /\
  (forall cfg f now sid st uid st',
     mw_session_from_store cfg f now sid st = (Ok (Some uid), st') ->
     cache st <> None -> zero_time < now ->
     exists s,
       session_by_id sid (db st) = Some s /\
       session_deadline sid st' =
         Some (now + clamp_ttl (mw_cache_ttl cfg) (s_expires_at s - now)) /\
       (now < s_expires_at s ->
          now + clamp_ttl (mw_cache_ttl cfg) (s_expires_at s - now) <= s_expires_at s)).
Proof.
  split; [|split; [|split]].
  - intros ttl u Hu. unfold clamp_ttl.
    destruct (0 <? u) eqn:E1, (u <? ttl) eqn:E2; simpl; lia.
  - intros ttl u Hu. unfold clamp_ttl.
    destruct (0 <? u) eqn:E1; simpl; [lia|reflexivity].
  - intros HashToken cfg f newID user lifetime now st sess a r st' H Hc Httl.
    destruct st as [d [c|]]; [|now elim Hc].
    unfold createSession, bind, wrap, catch, throw, ret, CreateSession,
      UpdateSessionRefreshToken, db_write, has_cache in H.
    destruct (f CCreateSession); [discriminate|].
    destruct (f CUpdateSessionRefresh); [discriminate|].
    cbn in H.
    unfold cache_set_session, cache_set_user in H.
    pose proof (clamp_ttl_pos (cache_ttl cfg) (now + lifetime - now) Httl) as Hp.
    replace (clamp_ttl (cache_ttl cfg) (now + lifetime - now) <=? 0) with false in H
      by lia.
    replace (cache_ttl cfg <=? 0) with false in H by lia.
    cbn in H. injection H as <- <- <- <-. cbn.
    unfold session_deadline. cbn [cache c_sessions]. rewrite lookup_insert_eq. split; [reflexivity|].
    intros Hlt. pose proof (clamp_ttl_le (cache_ttl cfg) (now + lifetime - now)). lia.
  - intros cfg f now sid st uid st' H Hc Hz.
    destruct st as [d [c|]]; [|now elim Hc].
    unfold mw_session_from_store, bind_or, bind, ret, GetSessionByID, db_read in H.
    destruct (f CGetSessionByID); [discriminate|].
    cbn in H. destruct (session_by_id sid d) as [s|] eqn:Es; [|discriminate].
    exists s. split; [exact Es|].
    destruct (negb (s_is_active s) || (s_expires_at s <? now)) eqn:Eb; [discriminate|].
    apply orb_false_iff in Eb as [_ Eb]. apply Z.ltb_ge in Eb.
    unfold mw_session_ttl in H.
    replace (s_expires_at s =? zero_time) with false in H by lia.
    assert (Hp : 0 < mw_cache_ttl cfg).
    { unfold mw_cache_ttl. destruct (0 <? cache_ttl cfg) eqn:E; [lia|]. unfold second; lia. }
    pose proof (clamp_ttl_pos (mw_cache_ttl cfg) (s_expires_at s - now) Hp) as Hq.
    unfold cache_set_session in H.
    replace (clamp_ttl (mw_cache_ttl cfg) (s_expires_at s - now) <=? 0) with false in H
      by lia.
    cbn in H. injection H as _ <-.
    unfold session_deadline. cbn [cache c_sessions]. rewrite lookup_insert_eq. split; [reflexivity|].
    intros Hlt. pose proof (clamp_ttl_le (mw_cache_ttl cfg) (s_expires_at s - now)). lia.
Qed.

Lemma session_cache_ttl_clamped_witness :
  clamp_ttl (3600 * second) (60 * second) = Z.min (3600 * second) (60 * second) /\
  clamp_ttl (3600 * second) 0 = 3600 * second /\
  match createSession hash_ex cfg_ex no_faults "s1" owner_ex
          (refresh_token_lifetime cfg_ex) t_ex st_ex with
  | (Ok (sess, _, _), st') =>
      session_deadline (s_id sess) st' =
        Some (t_ex + clamp_ttl (cache_ttl cfg_ex) (s_expires_at sess - t_ex)) /\
      (t_ex < s_expires_at sess ->
         t_ex + clamp_ttl (cache_ttl cfg_ex) (s_expires_at sess - t_ex)
         <= s_expires_at sess)
  | _ => False
  end /\
  match mw_session_from_store cfg_ex no_faults t_ex "s1"
          (st_session_ex (t_ex + 60 * second)) with
  | (Ok (Some _), st') =>
      exists s,
        session_by_id "s1" (db (st_session_ex (t_ex + 60 * second))) = Some s /\
        session_deadline "s1" st' =
          Some (t_ex + clamp_ttl (mw_cache_ttl cfg_ex) (s_expires_at s - t_ex)) /\
        (t_ex < s_expires_at s ->
           t_ex + clamp_ttl (mw_cache_ttl cfg_ex) (s_expires_at s - t_ex)
           <= s_expires_at s)
  | _ => False
  end.
Proof.
  destruct session_cache_ttl_clamped as [H1 [H2 [H3 H4]]].
  split; [apply H1; vm_compute; reflexivity|].
  split; [apply H2; vm_compute; discriminate|].
  split.
  - destruct (createSession hash_ex cfg_ex no_faults "s1" owner_ex
                (refresh_token_lifetime cfg_ex) t_ex st_ex)
      as [[[[sess a] r]|e] st'] eqn:E.
    + apply (H3 _ _ _ _ _ _ _ _ _ _ _ _ E); vm_compute; [discriminate|reflexivity].
    + vm_compute in E. discriminate E.
  - destruct (mw_session_from_store cfg_ex no_faults t_ex "s1"
                (st_session_ex (t_ex + 60 * second)))
      as [[[uid|]|e] st'] eqn:E.
    + apply (H4 _ _ _ _ _ _ _ E); vm_compute; [discriminate|reflexivity].
    + vm_compute in E. discriminate E.
    + vm_compute in E. discriminate E.
Defined.

(** C9 (counterexample).  bcrypt reads the password followed by a NUL byte
    cyclically, so ["a"] and ["a\x00a"] give the same 72-byte key stream:
    the hash of ["a"] accepts ["a\x00a"].  And a 73-byte password has no
    hash at all. *)
Lemma bcrypt_password_collision :
  "a"%string <> nul_pw_ex /\
  key_stream "a" = key_stream nul_pw_ex /\
  match HashPassword eks_ex "salt" "a" with
  | Ok h => ComparePassword eks_ex h nul_pw_ex = true
  | Error _ => False
  end /\
  (exists e, HashPassword eks_ex "salt" long_pw_ex = Error e).
Proof.
  split; [discriminate|]. split; [reflexivity|]. split; [reflexivity|].
  eexists. reflexivity.
Qed.

Lemma length_list_ascii_of_string (p : string) :
  length (list_ascii_of_string p) = String.length p.
Proof. induction p; simpl; auto. Qed.

(** The first bytes of the stream are the key itself. *)
Lemma key_stream_nth (p : string) (i : nat) :
  (i < length (bcrypt_key p))%nat -> (length (bcrypt_key p) <= 72)%nat ->
  nth i (key_stream p) Ascii.zero = nth i (bcrypt_key p) Ascii.zero.
Proof.
  intros Hi Hk. unfold key_stream.
  set (F := fun j => nth (Nat.modulo j (length (bcrypt_key p))) (bcrypt_key p) Ascii.zero).
  rewrite (nth_indep _ Ascii.zero (F 0%nat)) by (rewrite length_map, length_seq; lia).
  rewrite map_nth, seq_nth by lia. subst F. simpl.
  rewrite Nat.mod_small by lia. reflexivity.
Qed.

(** C9 (amended).  [HashToken] is a function, so equal inputs hash alike;
    [HashPassword] succeeds on every password of at most 72 bytes and
    [ComparePassword] accepts that password against the hash; a candidate
    [p2] is accepted exactly when the Blowfish core gives the same output on
    the key streams of [p2] and [p]; and two passwords of at most 71 bytes
    without NUL bytes have distinct key streams, so for them acceptance of
    [p2 <> p] needs a collision of the Blowfish core itself. *)
Theorem password_hash_roundtrip :
  (forall (HashToken : Token -> string) (x : Token), HashToken x = HashToken x) /\
  (forall eks salt p, (String.length p <= 72)%nat ->
     exists h, HashPassword eks salt p = Ok h /\ ComparePassword eks h p = true) /\
  (forall eks salt p h p2, HashPassword eks salt p = Ok h ->
     ComparePassword eks h p2 =
       String.eqb (eks bcrypt_default_cost salt (key_stream p2))
                  (eks bcrypt_default_cost salt (key_stream p))) /\
  (forall p p2, (String.length p <= 71)%nat -> (String.length p2 <= 71)%nat ->
     ~ In Ascii.zero (list_ascii_of_string p) ->
     ~ In Ascii.zero (list_ascii_of_string p2) ->
     key_stream p = key_stream p2 -> p = p2).
Proof.
  split; [reflexivity|]. split; [|split].
  - intros eks salt p Hp. unfold HashPassword.
    replace (72 <? String.length p)%nat with false by (symmetry; apply Nat.ltb_ge; lia).
    eexists; split; [reflexivity|]. unfold ComparePassword; simpl.
    apply String.eqb_refl.
  - intros eks salt p h p2 H. unfold HashPassword in H.
    destruct (72 <? String.length p)%nat; [discriminate|].
    injection H as <-. reflexivity.
  - intros p p2 Hp Hp2 Np Np2 Hks.
    assert (Hkey : forall q, (String.length q <= 71)%nat ->
              length (bcrypt_key q) = S (String.length q)).
    { intros q _. unfold bcrypt_key. rewrite length_app, length_list_ascii_of_string.
      simpl. lia. }
    set (a := list_ascii_of_string p) in *.
    set (b := list_ascii_of_string p2) in *.
    assert (La : length a = String.length p) by apply length_list_ascii_of_string.
    assert (Lb : length b = String.length p2) by apply length_list_ascii_of_string.
    (* position [i] of each stream, for [i] up to both lengths *)
    assert (Hat : forall i, (i <= String.length p)%nat -> (i <= String.length p2)%nat ->
               nth i (a ++ [Ascii.zero]) Ascii.zero = nth i (b ++ [Ascii.zero]) Ascii.zero).
    { intros i Hi Hi2.
      change (nth i (bcrypt_key p) Ascii.zero = nth i (bcrypt_key p2) Ascii.zero).
      rewrite <- (key_stream_nth p i), <- (key_stream_nth p2 i), Hks;
        [reflexivity| rewrite Hkey; lia .. ]. }
    assert (Hlen : String.length p = String.length p2).
    { destruct (Nat.lt_total (String.length p) (String.length p2)) as [Hl|[Hl|Hl]];
        [exfalso| assumption | exfalso].
      - specialize (Hat (String.length p) ltac:(lia) ltac:(lia)).
        rewrite app_nth2 in Hat by lia. rewrite La, Nat.sub_diag in Hat.
        rewrite app_nth1 in Hat by lia. simpl in Hat.
        apply Np2. rewrite Hat. apply nth_In. lia.
      - specialize (Hat (String.length p2) ltac:(lia) ltac:(lia)).
        rewrite (app_nth2 b) in Hat by lia. rewrite Lb, Nat.sub_diag in Hat.
        rewrite app_nth1 in Hat by lia. simpl in Hat.
        apply Np. rewrite <- Hat. apply nth_In. lia. }
    assert (Hab : a = b).
    { apply (nth_ext a b Ascii.zero Ascii.zero); [lia|].
      intros i Hi. specialize (Hat i ltac:(lia) ltac:(lia)).
      rewrite !app_nth1 in Hat by lia. exact Hat. }
    rewrite <- (string_of_list_ascii_of_string p), <- (string_of_list_ascii_of_string p2).
    fold a b. rewrite Hab. reflexivity.
Qed.

Lemma password_hash_roundtrip_witness :
  hash_ex (Raw "x") = hash_ex (Raw "x") /\
  (exists h, HashPassword eks_ex "salt" "password123" = Ok h /\
             ComparePassword eks_ex h "password123" = true) /\
  ComparePassword eks_ex (u_password owner_ex) "password124" =
    String.eqb (eks_ex bcrypt_default_cost "salt" (key_stream "password124"))
               (eks_ex bcrypt_default_cost "salt" (key_stream "password123")) /\
  "password123"%string = "password123"%string.
Proof.
  destruct password_hash_roundtrip as [H1 [H2 [H3 H4]]].
  split; [apply H1|].
  split; [apply H2; vm_compute; lia|].
  split; [apply (H3 eks_ex "salt" "password123"); reflexivity|].
  apply H4; [vm_compute; lia|vm_compute; lia| | |reflexivity];
    cbn; intros Hc; repeat (destruct Hc as [Hc|Hc]; [discriminate Hc|]); exact Hc.
Defined.

(** C1 (counterexample).  [BlockUser] succeeds although its cache cleanup
    failed (the session-id query and [DelUser] are best effort); the user is
    blocked in the store, yet the very next request with the access token
    minted before the block passes: session and user are both served from
    the cache entries the first request wrote. *)
Lemma block_stale_cache_passes :
  match block_stale_ex st_live_ex with
  | (Ok (Pass _, Pass ctx), st') =>
      ctx_id ctx = "u1" /\
      option_map u_is_blocked (user_by_id "u1" (db st')) = Some true
  | _ => False
  end.
Proof. vm_compute. split; reflexivity. Qed.

Lemma locked_out_frame (uid : string) (st st' : State) :
  db st' = db st -> users_cache st' = users_cache st ->
  user_locked_out uid st -> user_locked_out uid st'.
Proof.
  intros Hd Hc [Hu Hcu]. split.
  - rewrite Hd. exact Hu.
  - intros c v d Hst' Hl. unfold users_cache in Hc. rewrite Hst' in Hc.
    destruct (cache st) as [c0|] eqn:E0; [|discriminate].
    injection Hc as Hc. apply (Hcu c0 v d); [reflexivity|]. rewrite <- Hc. exact Hl.
Qed.

Lemma mw_session_frame cfg f now sid st r st' :
  mw_session cfg f now sid st = (r, st') ->
  db st' = db st /\ users_cache st' = users_cache st.
Proof.
  destruct st as [d [c|]]; intros H;
  unfold mw_session, mw_session_from_store, bind, bind_or, ret, ignore,
    cache_get_session, cache_del_session, cache_set_session, map_cache, modify,
    throw, GetSessionByID, db_read in H;
  cbn in H;
  repeat (match type of H with
          | context [match ?x with _ => _ end] =>
              lazymatch x with
              | context [match _ with _ => _ end] => fail
              | _ => destruct x
              end
          | context [if ?x then _ else _] =>
              lazymatch x with
              | context [match _ with _ => _ end] => fail
              | _ => destruct x
              end
          end; cbn in H);
  injection H as _ <-; split; reflexivity.
Qed.

Lemma mw_user_inv cfg f now uid uid' st r st' :
  user_locked_out uid st ->
  mw_user cfg f now uid' st = (r, st') ->
  user_locked_out uid st' /\
  (uid' = uid -> forall cu, r = Ok (Some cu) ->
     cu_is_blocked cu = true \/ cu_is_active cu = false).
Proof.
  intros [Hu Hcu] H.
  destruct st as [d cs].
  unfold mw_user, bind, bind_or, ret, cache_get_user, cache_set_user, map_cache,
    modify, GetUserByID, db_read in H.
  cbn in H.
  destruct (match cs with
            | Some c => match c_users c !! uid' with
                        | Some (v, dl) => if now <? dl then Some v else None
                        | None => None
                        end
            | None => None
            end) as [v|] eqn:Ehit.
  - (* cache hit: nothing changes *)
    injection H as <- <-. split; [split; assumption|].
    intros -> cu [= <-].
    destruct cs as [c|]; [|discriminate].
    destruct (c_users c !! uid) as [[v' dl]|] eqn:El; [|discriminate].
    destruct (now <? dl); [|discriminate]. injection Ehit as <-.
    eapply Hcu; [reflexivity|exact El].
  - destruct (f CGetUserByID); [cbn in H; injection H as <- <-; split; [split; assumption|]; discriminate|].
    change (db {| db := d; cache := cs |}) with d in H, Hu.
    destruct (user_by_id uid' d) as [u|] eqn:Eu;
      [|cbn in H; injection H as <- <-; split; [split; assumption|]; discriminate].
    cbn in H.
    destruct (mw_cache_ttl cfg <=? 0).
    + injection H as <- <-. split; [split; assumption|].
      intros -> cu [= <-]. simpl. apply Hu. exact Eu.
    + injection H as <- <-. split; [split|].
      * exact Hu.
      * intros c v dl Hc Hl. destruct cs as [c0|]; [|discriminate].
        cbn in Hc. injection Hc as <-. cbn in Hl.
        destruct (decide (uid' = uid)) as [->|Hne].
        -- rewrite lookup_insert_eq in Hl. injection Hl as <- _. simpl. apply Hu, Eu.
        -- rewrite lookup_insert_ne in Hl by exact Hne. eapply Hcu; [reflexivity|exact Hl].
      * intros -> cu [= <-]. simpl. apply Hu. exact Eu.
Qed.

Lemma Authenticate_locked_out cfg f now tok uid st r st' :
  user_locked_out uid st ->
  Authenticate cfg f now tok st = (r, st') ->
  user_locked_out uid st' /\ (forall ctx, r = Ok (Pass ctx) -> ctx_id ctx <> uid).
Proof.
  intros Hinv H. unfold Authenticate in H.
  destruct (token_is_empty tok).
  { injection H as <- <-. split; [exact Hinv|]. discriminate. }
  destruct (ValidateAccessToken cfg now tok) as [claims|e].
  2:{ destruct e; injection H as <- <-; (split; [exact Hinv|discriminate]). }
  unfold bind at 1 in H.
  destruct (mw_session cfg f now (ac_session_id claims) st) as [r1 st1] eqn:E1.
  pose proof (mw_session_frame _ _ _ _ _ _ _ E1) as [Hd1 Hc1].
  pose proof (locked_out_frame uid st st1 Hd1 Hc1 Hinv) as Hinv1.
  destruct r1 as [[suid|]|e].
  2:{ injection H as <- <-. split; [exact Hinv1|discriminate]. }
  2:{ injection H as <- <-. split; [exact Hinv1|discriminate]. }
  destruct (negb (String.eqb suid EmptyString) && negb (String.eqb suid (ac_user_id claims))).
  { injection H as <- <-. split; [exact Hinv1|discriminate]. }
  unfold bind in H.
  destruct (mw_user cfg f now (ac_user_id claims) st1) as [r2 st2] eqn:E2.
  destruct (mw_user_inv cfg f now uid (ac_user_id claims) st1 r2 st2 Hinv1 E2)
    as [Hinv2 Hblk].
  destruct r2 as [[cu|]|e].
  2:{ injection H as <- <-. split; [exact Hinv2|discriminate]. }
  2:{ injection H as <- <-. split; [exact Hinv2|discriminate]. }
  destruct (negb (cu_is_active cu) || cu_is_blocked cu) eqn:Eb.
  { injection H as <- <-. split; [exact Hinv2|discriminate]. }
  injection H as <- <-. split; [exact Hinv2|].
  intros ctx [= <-] Heq. simpl in Heq.
  destruct (Hblk Heq cu eq_refl) as [Hb|Ha].
  - rewrite Hb, orb_true_r in Eb. discriminate.
  - rewrite Ha in Eb. discriminate.
Qed.

Lemma authenticate_all_locked_out cfg uid reqs st os st' :
  user_locked_out uid st ->
  authenticate_all cfg reqs st = (Ok os, st') ->
  forall ctx, In (Pass ctx) os -> ctx_id ctx <> uid.
Proof.
  revert st os st'. induction reqs as [|[[f now] tok] rest IH];
    intros st os st' Hinv H ctx Hin; simpl in H.
  - unfold ret in H. injection H as <- _. destruct Hin.
  - unfold bind at 1 in H.
    destruct (Authenticate cfg f now tok st) as [r1 st1] eqn:E1.
    destruct (Authenticate_locked_out _ _ _ _ _ _ _ _ Hinv E1) as [Hinv1 Hno].
    destruct r1 as [o|e]; [|discriminate].
    unfold bind in H.
    destruct (authenticate_all cfg rest st1) as [[os'|e] st2] eqn:E2; [|discriminate].
    unfold ret in H. injection H as <- _.
    destruct Hin as [Heq|Hin].
    + apply Hno. rewrite Heq. reflexivity.
    + exact (IH st1 os' st2 Hinv1 E2 ctx Hin).
Qed.

Lemma cacheDelSession_frame f sid st :
  exists st', cacheDelSession f sid st = (Ok tt, st') /\
              db st' = db st /\ users_cache st' = users_cache st.
Proof.
  destruct st as [d [c|]]; unfold cacheDelSession, bind, has_cache, ret; simpl;
    [|eauto].
  destruct (String.eqb sid EmptyString); simpl; [eauto|].
  unfold ignore, cache_del_session, throw, map_cache, modify.
  destruct (f CCacheDelSession); simpl; eauto.
Qed.

Lemma mapM_cacheDelSession_frame f ids st :
  exists st', mapM_ (cacheDelSession f) ids st = (Ok tt, st') /\
              db st' = db st /\ users_cache st' = users_cache st.
Proof.
  revert st. induction ids as [|sid ids IH]; intros st; simpl.
  - unfold ret. eauto.
  - unfold bind.
    destruct (cacheDelSession_frame f sid st) as [st1 [-> [Hd1 Hc1]]].
    destruct (IH st1) as [st2 [-> [Hd2 Hc2]]].
    exists st2. split; [reflexivity|]. split; congruence.
Qed.

Lemma BlockUser_locks_out f now uid blockedBy st st' :
  BlockUser f now uid blockedBy st = (Ok tt, st') ->
  f CCacheDelUser = false -> uid <> EmptyString ->
  user_locked_out uid st'.
Proof.
  intros H Hdel Hne. unfold BlockUser, bind at 1 in H.
  destruct (active_ids_best_effort_state f uid st) as [ids Eids]. rewrite Eids in H.
  unfold bind at 1, wrap, catch, RepoBlockUser, db_write in H.
  destruct (f CBlockUser); [discriminate|]. cbn in H.
  unfold bind at 1, InvalidateAllUserSessions, db_write in H.
  destruct (f CInvalidateAll); [discriminate|]. cbn in H.
  unfold bind at 1 in H.
  match type of H with
  | context [mapM_ (cacheDelSession f) ids ?s0] =>
      destruct (mapM_cacheDelSession_frame f ids s0) as [st2 [E2 [Hd2 Hc2]]];
      rewrite E2 in H
  end.
  cbn in Hd2.
  split.
  - intros u Hu.
    assert (Hdb : db st' = db st2).
    { destruct st2 as [d2 [c2|]]; unfold cacheDelUser, bind, has_cache, ret in H;
        cbn in H; [|injection H as <-; reflexivity].
      destruct (String.eqb uid EmptyString); cbn in H; [injection H as <-; reflexivity|].
      unfold ignore, cache_del_user, map_cache, modify in H. rewrite Hdel in H.
      cbn in H. injection H as <-. reflexivity. }
    rewrite Hdb, Hd2 in Hu.
    unfold user_by_id, update_sessions, with_sessions in Hu. cbn in Hu.
    change (find (fun u => String.eqb (u_id u) uid && negb (u_deleted u))
                 (users (update_user uid (set_blocked blockedBy now) (db st))) = Some u) in Hu.
    fold (user_by_id uid (update_user uid (set_blocked blockedBy now) (db st))) in Hu.
    rewrite user_by_id_update in Hu by (intros; split; reflexivity).
    destruct (user_by_id uid (db st)); [|discriminate].
    injection Hu as <-. left. reflexivity.
  - intros c v dl Hc Hl.
    destruct st2 as [d2 [c2|]]; unfold cacheDelUser, bind, has_cache, ret in H; cbn in H.
    + apply String.eqb_neq in Hne. rewrite Hne in H. cbn in H.
      unfold ignore, cache_del_user, map_cache, modify in H. rewrite Hdel in H.
      cbn in H. injection H as <-. cbn in Hc. injection Hc as <-. cbn in Hl.
      rewrite lookup_delete_eq in Hl. discriminate.
    + injection H as <-. discriminate.
Qed.

(** C1 (amended).  Once the store holds user [uid] blocked or inactive and
    no cache entry for [uid] says otherwise, no request through the
    middleware passes as [uid], whatever its token, clock or faults.
    A successful [BlockUser] whose cache [DelUser] did not fail
    establishes that state, so after it no request passes as the blocked
    user. *)
Theorem blocked_user_never_authenticates cfg :
  (forall uid st reqs os st',
     user_locked_out uid st ->
     authenticate_all cfg reqs st = (Ok os, st') ->
     forall ctx, In (Pass ctx) os -> ctx_id ctx <> uid) /\
  (forall f now uid blockedBy st st' reqs os st'',
     BlockUser f now uid blockedBy st = (Ok tt, st') ->
     f CCacheDelUser = false -> uid <> EmptyString ->
     authenticate_all cfg reqs st' = (Ok os, st'') ->
     forall ctx, In (Pass ctx) os -> ctx_id ctx <> uid).
Proof.
  split.
  - intros uid st reqs os st' Hinv H. exact (authenticate_all_locked_out _ _ _ _ _ _ Hinv H).
  - intros f now uid blockedBy st st' reqs os st'' Hb Hdel Hne H.
    exact (authenticate_all_locked_out _ _ _ _ _ _ (BlockUser_locks_out _ _ _ _ _ _ Hb Hdel Hne) H).
Qed.

Lemma blocked_user_never_authenticates_witness :
  match BlockUser no_faults (t_ex + second) "u1" "admin" st_live_ex with
  | (Ok tt, st1) =>
      match authenticate_all cfg_ex reqs_ex st1 with
      | (Ok os, _) =>
          (forall ctx, In (Pass ctx) os -> ctx_id ctx <> "u1") /\
          (forall ctx, In (Pass ctx) os -> ctx_id ctx <> "u1")
      | _ => False
      end
  | _ => False
  end.
Proof.
  destruct (blocked_user_never_authenticates cfg_ex) as [H1 H2].
  destruct (BlockUser no_faults (t_ex + second) "u1" "admin" st_live_ex)
    as [[[]|e] st1] eqn:Eb; [|vm_compute in Eb; discriminate Eb].
  assert (Hst1 : st1 = snd (BlockUser no_faults (t_ex + second) "u1" "admin" st_live_ex))
    by (rewrite Eb; reflexivity).
  destruct (authenticate_all cfg_ex reqs_ex st1) as [[os|e] st2] eqn:Ea;
    [|rewrite Hst1 in Ea; vm_compute in Ea; discriminate Ea].
  split.
  - apply (H1 "u1" st1 reqs_ex os st2); [|exact Ea].
    rewrite Hst1. split.
    + intros u Hu. vm_compute in Hu. injection Hu as <-. left. reflexivity.
    + intros c v dl Hc Hl. vm_compute in Hc. injection Hc as <-.
      vm_compute in Hl. discriminate Hl.
  - apply (H2 no_faults (t_ex + second) "u1" "admin" st_live_ex st1 reqs_ex os st2);
      [exact Eb|reflexivity|discriminate|exact Ea].
Defined.

(* ------------------------------------------------------------------ *)
(** ** Further properties of the code *)

Lemma parse_and_check_own cfg now c :
  cl_iss c = jwt_issuer cfg -> cl_aud c = audience cfg ->
  parse_and_check cfg now (JWT "HS256" c (jwt_secret cfg)) =
    if now <? cl_exp c * second then Ok c else Error ErrExpiredToken.
Proof.
  intros Hi Ha. unfold parse_and_check. simpl.
  rewrite String.eqb_refl. simpl.
  destruct (now <? cl_exp c * second); simpl; [|reflexivity].
  rewrite Hi, Ha, !String.eqb_refl. reflexivity.
Qed.

(** X1. An access token minted by [GenerateAccessToken] is accepted by
    [ValidateAccessToken] with the user id, email, role and session id it
    was minted with, as long as the clock is before its expiry (issue time
    in whole seconds plus the access lifetime); from then on it is rejected
    as expired. *)
Theorem ValidateAccessToken_GenerateAccessToken cfg now uid email role sid t :
  ValidateAccessToken cfg now (GenerateAccessToken cfg uid email role sid t) =
    if now <? unix (t + access_token_lifetime cfg) * second
    then Ok {| ac_user_id := uid; ac_email := email; ac_role := role;
               ac_session_id := sid |}
    else Error ErrExpiredToken.
Proof.
  unfold ValidateAccessToken, GenerateAccessToken.
  rewrite parse_and_check_own by reflexivity. simpl.
  destruct (now <? _); reflexivity.
Qed.

(** X2. A refresh token minted by [GenerateRefreshToken] with a lifetime
    is accepted by [ValidateRefreshToken] with its user and session id
    before its expiry and rejected as expired from then on. *)
Theorem ValidateRefreshToken_GenerateRefreshToken cfg now uid sid lifetime t :
  ValidateRefreshToken cfg now (GenerateRefreshToken cfg uid sid lifetime t) =
    if now <? unix (t + lifetime) * second
    then Ok {| rc_user_id := uid; rc_session_id := sid |}
    else Error ErrExpiredToken.
Proof.
  unfold ValidateRefreshToken, GenerateRefreshToken.
  rewrite parse_and_check_own by reflexivity. simpl.
  destruct (now <? _); reflexivity.
Qed.



(** X4. The middleware does not tell token kinds apart: an unexpired refresh
    token for a session gives exactly the outcome and state that an
    unexpired access token for the same user and session gives, whatever
    email and role the access token carries. *)
Theorem Authenticate_accepts_refresh_token cfg f now uid email role sid lifetime t t' st :
  now < unix (t + lifetime) * second ->
  now < unix (t' + access_token_lifetime cfg) * second ->
  Authenticate cfg f now (GenerateRefreshToken cfg uid sid lifetime t) st =
  Authenticate cfg f now (GenerateAccessToken cfg uid email role sid t') st.
Proof.
  intros H1 H2. unfold Authenticate.
  assert (E1 : ValidateAccessToken cfg now (GenerateRefreshToken cfg uid sid lifetime t) =
               Ok {| ac_user_id := uid; ac_email := EmptyString; ac_role := EmptyString;
                     ac_session_id := sid |}).
  { unfold ValidateAccessToken, GenerateRefreshToken.
    rewrite parse_and_check_own by reflexivity. simpl.
    apply Z.ltb_lt in H1. rewrite H1. reflexivity. }
  assert (E2 : ValidateAccessToken cfg now (GenerateAccessToken cfg uid email role sid t') =
               Ok {| ac_user_id := uid; ac_email := email; ac_role := role;
                     ac_session_id := sid |}).
  { unfold ValidateAccessToken, GenerateAccessToken.
    rewrite parse_and_check_own by reflexivity. simpl.
    apply Z.ltb_lt in H2. rewrite H2. reflexivity. }
  rewrite E1, E2. reflexivity.
Qed.

Lemma Authenticate_accepts_refresh_token_witness :
  Authenticate cfg_ex no_faults t_ex refresh_ex st_live_ex =
  Authenticate cfg_ex no_faults t_ex access_ex st_live_ex.
Proof.
  apply Authenticate_accepts_refresh_token; reflexivity.
Defined.


Lemma cacheDelUser_ok f uid st :
  exists st', cacheDelUser f uid st = (Ok tt, st') /\ db st' = db st.
Proof.
  destruct st as [d [c|]]; unfold cacheDelUser, bind, has_cache, ret; simpl; [|eauto].
  destruct (String.eqb uid EmptyString); simpl; [eauto|].
  unfold ignore, cache_del_user, throw, map_cache, modify.
  destruct (f CCacheDelUser); simpl; eauto.
Qed.

Lemma active_session_ids_update uid s :
  active_session_ids uid
    (update_sessions (fun x => String.eqb (s_user_id x) uid) set_inactive s) = [].
Proof.
  unfold active_session_ids, update_sessions, with_sessions. simpl.
  induction (sessions s) as [|x l IH]; [reflexivity|].
  rewrite fmap_cons, filter_cons.
  destruct (String.eqb (s_user_id x) uid) eqn:E.
  - rewrite decide_False; [exact IH|]. destruct x; simpl. rewrite andb_false_r. auto.
  - rewrite decide_False; [exact IH|]. rewrite E. auto.
Qed.

(** X9. [LogoutAll] fails only when the bulk invalidation fails, and then
    changes nothing; otherwise it deactivates every session of the user,
    leaves every other row as it was, and the user has no active session
    left. *)
Theorem LogoutAll_spec f uid st :
  (f CInvalidateAll = true ->
     fst (LogoutAll f uid st) =
       Error (ErrWrap "failed to logout all sessions"
                (ErrWrap "failed to invalidate all user sessions" (ErrDb "store"))) /\
     snd (LogoutAll f uid st) = st) /\
  (f CInvalidateAll = false ->
     fst (LogoutAll f uid st) = Ok tt /\
     db (snd (LogoutAll f uid st)) =
       update_sessions (fun x => String.eqb (s_user_id x) uid) set_inactive (db st) /\
     active_session_ids uid (db (snd (LogoutAll f uid st))) = []).
Proof.
  destruct (active_ids_best_effort_state f uid st) as [ids Hids].
  unfold LogoutAll, bind. rewrite Hids.
  unfold wrap, catch, InvalidateAllUserSessions, db_write, throw.
  split; intros Hf; rewrite Hf.
  - split; reflexivity.
  - destruct (mapM_cacheDelSession_frame f ids
                {| db := update_sessions (fun x => String.eqb (s_user_id x) uid) set_inactive (db st);
                   cache := cache st |}) as [st1 [H1 [Hd1 _]]].
    rewrite H1. destruct (cacheDelUser_ok f uid st1) as [st2 [H2 Hd2]].
    rewrite H2. simpl. rewrite Hd2, Hd1. simpl.
    split; [reflexivity|]. split; [reflexivity|]. apply active_session_ids_update.
Qed.

Lemma LogoutAll_spec_witness :
  fst (LogoutAll no_faults "u1" st_live_ex) = Ok tt /\
  db (snd (LogoutAll no_faults "u1" st_live_ex)) =
    update_sessions (fun x => String.eqb (s_user_id x) "u1") set_inactive (db st_live_ex) /\
  active_session_ids "u1" (db (snd (LogoutAll no_faults "u1" st_live_ex))) = [].
Proof.
  apply (proj2 (LogoutAll_spec no_faults "u1" st_live_ex)). reflexivity.
Defined.

(** X10. [DeleteSession] reports a missing session, or a failing lookup, as
    [ErrSessionNotFound] and a session of another user as unauthorized,
    both without change; on success the session belonged to the caller and
    every row with that id is deactivated. *)
Theorem DeleteSession_spec f sid uid st :
  (f CGetSessionByID = true \/ session_by_id sid (db st) = None ->
     DeleteSession f sid uid st = (Error ErrSessionNotFound, st)) /\
  (forall s, f CGetSessionByID = false -> session_by_id sid (db st) = Some s ->
     s_user_id s <> uid ->
     DeleteSession f sid uid st = (Error (ErrDb "unauthorized to delete this session"), st)) /\
  (forall st', DeleteSession f sid uid st = (Ok tt, st') ->
     exists s, session_by_id sid (db st) = Some s /\ s_user_id s = uid /\
     db st' = update_sessions (fun x => String.eqb (s_id x) sid) set_inactive (db st)).
Proof.
  unfold DeleteSession, bind, bind_or, GetSessionByID, db_read, throw, ret.
  split; [|split].
  - intros [Hf|Hn]; [rewrite Hf; reflexivity|].
    destruct (f CGetSessionByID); [reflexivity|]. rewrite Hn. reflexivity.
  - intros s Hf Hs Hu. rewrite Hf, Hs.
    apply String.eqb_neq in Hu. rewrite Hu. reflexivity.
  - intros st' H. destruct (f CGetSessionByID); [discriminate|].
    destruct (session_by_id sid (db st)) as [s|]; [|discriminate].
    exists s. split; [reflexivity|].
    destruct (String.eqb_spec (s_user_id s) uid) as [Hu|Hu]; [|discriminate].
    split; [exact Hu|]. revert H.
    unfold wrap, catch, InvalidateSession, db_write, throw. simpl.
    destruct (f CInvalidate); [discriminate|].
    destruct (cacheDelSession_ok f sid
               {| db := update_sessions (fun x => String.eqb (s_id x) sid) set_inactive (db st);
                  cache := cache st |}) as [_ Hd].
    destruct (cacheDelSession f sid _) as [r st2]. simpl in Hd.
    intros H. injection H as _ <-. exact Hd.
Qed.

Lemma DeleteSession_spec_witness :
  DeleteSession no_faults "s1" "u2" st_live_ex =
    (Error (ErrDb "unauthorized to delete this session"), st_live_ex).
Proof.
  apply (proj1 (proj2 (DeleteSession_spec no_faults "s1" "u2" st_live_ex))
           (session_ex (t_ex + 168 * 3600 * second)));
    [reflexivity|reflexivity|discriminate].
Defined.

Lemma BlockUser_db f now uid blockedBy st st' :
  BlockUser f now uid blockedBy st = (Ok tt, st') ->
  db st' = update_sessions (fun x => String.eqb (s_user_id x) uid) set_inactive
             (update_user uid (set_blocked blockedBy now) (db st)).
Proof.
  intros H. unfold BlockUser, bind at 1 in H.
  destruct (active_ids_best_effort_state f uid st) as [ids Eids]. rewrite Eids in H.
  unfold bind at 1, wrap, catch, RepoBlockUser, db_write in H.
  destruct (f CBlockUser); [discriminate|]. cbn in H.
  unfold bind at 1, InvalidateAllUserSessions, db_write in H.
  destruct (f CInvalidateAll); [discriminate|]. cbn in H.
  unfold bind at 1 in H.
  match type of H with
  | context [mapM_ (cacheDelSession f) ids ?s0] =>
      destruct (mapM_cacheDelSession_frame f ids s0) as [st2 [E2 [Hd2 _]]];
      rewrite E2 in H
  end.
  destruct (cacheDelUser_ok f uid st2) as [st3 [E3 Hd3]]. rewrite E3 in H.
  injection H as <-. rewrite Hd3, Hd2. reflexivity.
Qed.

Lemma UnblockUser_db f g now uid st st' :
  UnblockUser f g now uid st = (Ok tt, st') ->
  db st' = update_user uid (set_unblocked now) (db st).
Proof.
  unfold UnblockUser, bind, wrap, catch, RepoUnblockUser, throw.
  destruct (g CUnblockUser); [discriminate|].
  destruct (cacheDelUser_ok f uid {| db := update_user uid (set_unblocked now) (db st);
                                     cache := cache st |}) as [st2 [E2 Hd2]].
  rewrite E2. intros H. injection H as <-. exact Hd2.
Qed.

(** X11. Blocking and then unblocking a user restores the unblocked flags
    (blocked-at and blocked-by cleared) but not the sessions: the user has
    no active session left and must log in again. *)
Theorem BlockUser_then_UnblockUser f g now now' uid blockedBy st st1 st2 :
  BlockUser f now uid blockedBy st = (Ok tt, st1) ->
  UnblockUser f g now' uid st1 = (Ok tt, st2) ->
  active_session_ids uid (db st2) = [] /\
  user_by_id uid (db st2) =
    option_map (fun u => set_unblocked now' (set_blocked blockedBy now u))
               (user_by_id uid (db st)).
Proof.
  intros H1 H2. apply BlockUser_db in H1. apply UnblockUser_db in H2.
  rewrite H2, H1. split.
  - apply active_session_ids_update.
  - rewrite user_by_id_update by (intros; split; reflexivity).
    rewrite (users_user_by_id (update_user uid (set_blocked blockedBy now) (db st))
               (update_sessions _ _ _)) by reflexivity.
    rewrite user_by_id_update by (intros; split; reflexivity).
    destruct (user_by_id uid (db st)); reflexivity.
Qed.

Lemma BlockUser_then_UnblockUser_witness :
  active_session_ids "u1"
    (db (snd (UnblockUser no_faults no_ext_faults (t_ex + 2 * second) "u1"
                (snd (BlockUser no_faults (t_ex + second) "u1" "admin" st_live_ex))))) = [] /\
  user_by_id "u1"
    (db (snd (UnblockUser no_faults no_ext_faults (t_ex + 2 * second) "u1"
                (snd (BlockUser no_faults (t_ex + second) "u1" "admin" st_live_ex))))) =
    option_map (fun u => set_unblocked (t_ex + 2 * second) (set_blocked "admin" (t_ex + second) u))
               (user_by_id "u1" (db st_live_ex)).
Proof.
  apply (BlockUser_then_UnblockUser no_faults no_ext_faults (t_ex + second)
           (t_ex + 2 * second) "u1" "admin" st_live_ex
           (snd (BlockUser no_faults (t_ex + second) "u1" "admin" st_live_ex))
           (snd (UnblockUser no_faults no_ext_faults (t_ex + 2 * second) "u1"
                   (snd (BlockUser no_faults (t_ex + second) "u1" "admin" st_live_ex)))));
    vm_compute; reflexivity.
Defined.

Lemma HashPassword_Compare eks salt p h :
  HashPassword eks salt p = Ok h -> ComparePassword eks h p = true.
Proof.
  unfold HashPassword. destruct (72 <? String.length p)%nat; [discriminate|].
  intros H. injection H as <-. unfold ComparePassword. simpl. apply String.eqb_refl.
Qed.

(** X12. [ChangePassword] with a wrong current password returns
    [ErrInvalidCredentials] and changes nothing; on success the stored hash
    is one the new password verifies against, while the sessions and the
    cache are left as they were (other sessions stay logged in). *)
Theorem ChangePassword_spec eks f salt now uid req st :
  (forall u, f CGetUserByID = false -> user_by_id uid (db st) = Some u ->
     ComparePassword eks (u_password u) (cp_current_password req) = false ->
     ChangePassword eks f salt now uid req st = (Error ErrInvalidCredentials, st)) /\
  (forall st', ChangePassword eks f salt now uid req st = (Ok tt, st') ->
     exists u h, user_by_id uid (db st) = Some u /\
       ComparePassword eks (u_password u) (cp_current_password req) = true /\
       HashPassword eks salt (cp_new_password req) = Ok h /\
       ComparePassword eks h (cp_new_password req) = true /\
       user_by_id uid (db st') = Some (set_password h now u) /\
       sessions (db st') = sessions (db st) /\ cache st' = cache st).
Proof.
  unfold ChangePassword, bind, wrap, catch, GetUserByID, db_read, throw, ret.
  split.
  - intros u Hf Hu Hc. rewrite Hf, Hu, Hc. reflexivity.
  - intros st'. destruct (f CGetUserByID); [discriminate|].
    destruct (user_by_id uid (db st)) as [u|] eqn:Hu; [|discriminate].
    destruct (ComparePassword eks (u_password u) (cp_current_password req)) eqn:Hc;
      [|discriminate]. simpl.
    destruct (HashPassword eks salt (cp_new_password req)) as [h|e] eqn:Hh;
      simpl; [|unfold throw; discriminate].
    unfold ret, UpdateUserPassword, db_write, throw.
    destruct (f CUpdatePassword); [discriminate|].
    intros H. injection H as <-. exists u, h.
    split; [reflexivity|]. split; [exact Hc|]. split; [reflexivity|].
    split; [apply (HashPassword_Compare eks salt); exact Hh|].
    split; [|split; reflexivity]. simpl.
    rewrite user_by_id_update by (intros; split; reflexivity). rewrite Hu. reflexivity.
Qed.

Lemma ChangePassword_spec_witness :
  ChangePassword eks_ex no_faults "salt2" t_ex "u1" change_wrong_ex st_live_ex =
    (Error ErrInvalidCredentials, st_live_ex) /\
  exists u h, user_by_id "u1" (db st_live_ex) = Some u /\
    ComparePassword eks_ex (u_password u) "password123" = true /\
    HashPassword eks_ex "salt2" "newpassword" = Ok h /\
    ComparePassword eks_ex h "newpassword" = true /\
    user_by_id "u1" (db (snd (ChangePassword eks_ex no_faults "salt2" t_ex "u1" change_ex
                                 st_live_ex))) = Some (set_password h t_ex u) /\
    sessions (db (snd (ChangePassword eks_ex no_faults "salt2" t_ex "u1" change_ex st_live_ex)))
      = sessions (db st_live_ex) /\
    cache (snd (ChangePassword eks_ex no_faults "salt2" t_ex "u1" change_ex st_live_ex))
      = cache st_live_ex.
Proof.
  split.
  - apply (proj1 (ChangePassword_spec eks_ex no_faults "salt2" t_ex "u1" change_wrong_ex
                    st_live_ex) owner_ex); [reflexivity|reflexivity|vm_compute; reflexivity].
  - apply (proj2 (ChangePassword_spec eks_ex no_faults "salt2" t_ex "u1" change_ex st_live_ex)).
    vm_compute. reflexivity.
Defined.

Lemma find_app_single {A} (p : A -> bool) (l : list A) (x : A) :
  (forall y, In y l -> p y = false) ->
  find p (l ++ [x]) = if p x then Some x else None.
Proof.
  induction l as [|y l IH]; intros Hl; simpl; [reflexivity|].
  rewrite (Hl y (or_introl eq_refl)). apply IH. intros z Hz. apply Hl. right. exact Hz.
Qed.

Lemma cache_set_session_ok sid v ttl now st :
  fst (cache_set_session sid v ttl now st) = Ok tt.
Proof.
  unfold cache_set_session. destruct (ttl <=? 0); reflexivity.
Qed.

Lemma cache_set_user_ok uid v ttl now st :
  fst (cache_set_user uid v ttl now st) = Ok tt.
Proof.
  unfold cache_set_user. destruct (ttl <=? 0); reflexivity.
Qed.

Lemma createSession_no_faults HashToken cfg newID user lifetime now st :
  exists r st', createSession HashToken cfg no_faults newID user lifetime now st = (Ok r, st').
Proof.
  unfold createSession, bind, wrap, catch, CreateSession, UpdateSessionRefreshToken,
    db_write, has_cache, ret. simpl.
  match goal with
  | |- context [match ?c with Some _ => true | None => false end] => destruct c
  end; simpl; [|eauto].
  match goal with
  | |- context [cache_set_session ?a ?b ?c ?d ?s] =>
      pose proof (cache_set_session_ok a b c d s) as E1;
      destruct (cache_set_session a b c d s) as [r1 s1]; simpl in E1; subst r1
  end.
  match goal with
  | |- context [cache_set_user ?a ?b ?c ?d ?s] =>
      pose proof (cache_set_user_ok a b c d s) as E2;
      destruct (cache_set_user a b c d s) as [r2 s2]; simpl in E2; subst r2
  end.
  eauto.
Qed.

Lemma existsb_false_in {A} (p : A -> bool) (l : list A) :
  existsb p l = false -> forall y, In y l -> p y = false.
Proof.
  intros H y Hy. destruct (p y) eqn:E; [|reflexivity].
  assert (existsb p l = true) by (apply existsb_exists; eauto). congruence.
Qed.

Lemma Register_success eks f g newID salt now req st resp st1 :
  Register eks f g newID salt now req st = (Ok resp, st1) ->
  exists h, HashPassword eks salt (rg_password req) = Ok h /\
    (forall u, In u (users (db st)) ->
       String.eqb (u_email u) (rg_email req) || String.eqb (u_id u) newID = false) /\
    db st1 = with_users (db st) (users (db st) ++ [new_user newID (rg_email req) h now]) /\
    resp = user_response (new_user newID (rg_email req) h now).
Proof.
  unfold Register, lift, bind_or, bind, wrap, catch, GetUserByEmail, db_read, throw, ret.
  intros H.
  destruct (f CGetUserByEmail);
    [|destruct (user_by_email (rg_email req) (db st)); [discriminate|]];
  (destruct (HashPassword eks salt (rg_password req)) as [h|e] eqn:Hh; [|discriminate]);
  unfold CreateUser in H; (destruct (g CCreateUser); [discriminate|]);
  (destruct (existsb _ (users (db st))) eqn:Hx; [discriminate|]);
  unfold GetUserByID, db_read in H; simpl in H;
  (destruct (f CGetUserByID); [discriminate|]);
  unfold user_by_id in H; simpl in H;
  (rewrite find_app_single in H;
     [|intros y Hy; pose proof (existsb_false_in _ _ Hx y Hy) as Hy';
       apply orb_false_iff in Hy' as [_ Hy']; rewrite Hy'; reflexivity]);
  simpl in H; rewrite String.eqb_refl in H; simpl in H;
  injection H as <- <-;
  (exists h; split; [reflexivity|]; split;
     [intros u Hu; apply (existsb_false_in _ _ Hx u Hu)|];
   split; reflexivity).
Qed.

(** X13. Registering an email some user row already holds, soft-deleted or
    not, always fails without change; the error is [ErrEmailAlreadyExists]
    exactly when the email lookup succeeds on a live user, and otherwise
    the wrapped error of a later step. *)
Theorem Register_existing_email eks f g newID salt now req st :
  existsb (fun u => String.eqb (u_email u) (rg_email req)) (users (db st)) = true ->
  exists e, Register eks f g newID salt now req st = (Error e, st) /\
    (e = ErrEmailAlreadyExists <->
     f CGetUserByEmail = false /\ user_by_email (rg_email req) (db st) <> None).
Proof.
  intros Hx.
  assert (Hx' : existsb (fun u => String.eqb (u_email u) (rg_email req)
                                  || String.eqb (u_id u) newID) (users (db st)) = true).
  { apply existsb_exists in Hx as [u [Hu Hu']]. apply existsb_exists.
    exists u. split; [exact Hu|]. rewrite Hu'. reflexivity. }
  assert (Hk : forall st0 : State, st0 = st ->
    f CGetUserByEmail = true \/ user_by_email (rg_email req) (db st) = None ->
    exists e, Register eks f g newID salt now req st0 = (Error e, st) /\
      (e = ErrEmailAlreadyExists <->
       f CGetUserByEmail = false /\ user_by_email (rg_email req) (db st) <> None)).
  { intros st0 -> Hc.
    assert (Hiff : forall e, e <> ErrEmailAlreadyExists ->
      (e = ErrEmailAlreadyExists <->
       f CGetUserByEmail = false /\ user_by_email (rg_email req) (db st) <> None)).
    { intros e Hne. split; [contradiction|]. intros [H1 H2].
      destruct Hc as [Hc|Hc]; congruence. }
    unfold Register, lift, bind_or, bind, wrap, catch, GetUserByEmail, db_read, throw, ret.
    assert (Hr : match (if f CGetUserByEmail
                        then (Error (ErrWrap "failed to get user by email" (ErrDb "store")), st)
                        else match user_by_email (rg_email req) (db st) with
                             | Some a => (Ok a, st)
                             | None => (Error (ErrWrap "failed to get user by email" ErrNoRows), st)
                             end) with
                 | (Ok _, _) => False | (Error _, s) => s = st end).
    { destruct Hc as [Hc|Hc]; rewrite Hc; [reflexivity|].
      destruct (f CGetUserByEmail); reflexivity. }
    destruct (if f CGetUserByEmail then _ else _) as [[a|e0] s]; [contradiction|].
    subst s.
    destruct (HashPassword eks salt (rg_password req)) as [h|e1].
    - unfold CreateUser. destruct (g CCreateUser).
      + eexists. split; [reflexivity|]. apply Hiff. discriminate.
      + rewrite Hx'. eexists. split; [reflexivity|]. apply Hiff. discriminate.
    - eexists. split; [reflexivity|]. apply Hiff. discriminate. }
  destruct (f CGetUserByEmail) eqn:Hf; [apply Hk; auto|].
  destruct (user_by_email (rg_email req) (db st)) as [u|] eqn:Hu; [|apply Hk; auto].
  exists ErrEmailAlreadyExists. split.
  - unfold Register, bind_or, GetUserByEmail, db_read, throw. rewrite Hf, Hu. reflexivity.
  - split; [intros _; split; [reflexivity|discriminate]|intros _; reflexivity].
Qed.

Lemma Register_existing_email_witness :
  exists e, Register eks_ex no_faults no_ext_faults "u2" "salt2" t_ex register_owner_ex st_ex
            = (Error e, st_ex) /\
    (e = ErrEmailAlreadyExists <->
     no_faults CGetUserByEmail = false /\ user_by_email "owner@example.com" (db st_ex) <> None).
Proof.
  apply Register_existing_email. reflexivity.
Defined.

(** X14. A successful [Register] creates an active customer with the id the
    store assigned, and a fault-free [Login] with the same email and
    password then succeeds and returns the same user response. *)
Theorem Register_then_Login HashToken eks cfg f g newID salt now req st resp st1
    sid now' stay :
  Register eks f g newID salt now req st = (Ok resp, st1) ->
  ur_id resp = newID /\ ur_role resp = "customer" /\ ur_is_active resp = true /\
  exists acc rft st2,
    Login HashToken eks cfg no_faults sid now'
      {| lr_email := rg_email req; lr_password := rg_password req;
         lr_stay_signed_in := stay |} st1 = (Ok (resp, acc, rft), st2).
Proof.
  intros H. apply Register_success in H as [h [Hh [Hall [Hdb ->]]]].
  split; [reflexivity|]. split; [reflexivity|]. split; [reflexivity|].
  unfold Login, bind, bind_or, GetUserByEmail, db_read. simpl.
  unfold user_by_email. rewrite Hdb. simpl.
  rewrite find_app_single.
  2:{ intros y Hy. specialize (Hall y Hy). apply orb_false_iff in Hall as [-> _].
      reflexivity. }
  simpl. rewrite String.eqb_refl. simpl.
  rewrite (HashPassword_Compare eks salt _ _ Hh). simpl.
  unfold wrap, catch.
  match goal with
  | |- context [createSession ?a ?b ?c ?d ?e ?l ?n ?s] =>
      destruct (createSession_no_faults a b d e l n s) as [[[x acc] rft] [st2 E]];
      rewrite E
  end.
  unfold ret. eauto.
Qed.

Lemma Register_then_Login_witness :
  match Register eks_ex no_faults no_ext_faults "u2" "salt2" t_ex register_ex st_ex with
  | (Ok resp, st1) =>
      ur_id resp = "u2" /\ ur_role resp = "customer" /\ ur_is_active resp = true /\
      exists acc rft st2,
        Login hash_ex eks_ex cfg_ex no_faults "s2" (t_ex + second)
          {| lr_email := "new@example.com"; lr_password := "password456";
             lr_stay_signed_in := false |} st1 = (Ok (resp, acc, rft), st2)
  | _ => False
  end.
Proof.
  destruct (Register eks_ex no_faults no_ext_faults "u2" "salt2" t_ex register_ex st_ex)
    as [[resp|e] st1] eqn:E; [|vm_compute in E; discriminate E].
  exact (Register_then_Login hash_ex eks_ex cfg_ex no_faults no_ext_faults "u2" "salt2" t_ex
           register_ex st_ex resp st1 "s2" (t_ex + second) false E).
Defined.




(** X16. [Refresh] rejections: an invalid refresh token, an unknown token
    hash (or failing lookup), an inactive or an expired session are
    reported without any change; a blocked or inactive user gets
    [ErrUserBlocked] and the session is deactivated unless that write
    fails. *)
Theorem Refresh_rejections HashToken cfg f now tok st :
  (forall e, ValidateRefreshToken cfg now tok = Error e ->
     Refresh HashToken cfg f now tok st = (Error e, st)) /\
  (forall c, ValidateRefreshToken cfg now tok = Ok c ->
     (f CGetSessionByHash = true \/ session_by_hash (HashToken tok) (db st) = None ->
        Refresh HashToken cfg f now tok st = (Error ErrSessionNotFound, st)) /\
     (forall s, f CGetSessionByHash = false ->
        session_by_hash (HashToken tok) (db st) = Some s ->
        (s_is_active s = false ->
           Refresh HashToken cfg f now tok st = (Error ErrSessionInactive, st)) /\
        (s_is_active s = true -> s_expires_at s < now ->
           Refresh HashToken cfg f now tok st = (Error ErrSessionExpired, st)) /\
        (forall u, s_is_active s = true -> now <= s_expires_at s ->
           f CGetUserByID = false -> user_by_id (rc_user_id c) (db st) = Some u ->
           u_is_active u = false \/ u_is_blocked u = true ->
           Refresh HashToken cfg f now tok st =
             (Error ErrUserBlocked,
              if f CInvalidate then st
              else {| db := update_sessions (fun x => String.eqb (s_id x) (s_id s))
                                            set_inactive (db st);
                      cache := cache st |})))).
Proof.
  unfold Refresh, bind, lift, bind_or, GetSessionByRefreshTokenHash, db_read, throw, ret.
  split.
  - intros e He. rewrite He. reflexivity.
  - intros c Hc. rewrite Hc. split.
    + intros [Hf|Hn]; [rewrite Hf; reflexivity|].
      destruct (f CGetSessionByHash); [reflexivity|]. rewrite Hn. reflexivity.
    + intros s Hf Hs. rewrite Hf, Hs. split; [|split].
      * intros Ha. rewrite Ha. reflexivity.
      * intros Ha He. rewrite Ha. apply Z.ltb_lt in He. rewrite He. reflexivity.
      * intros u Ha He Hg Hu Hb. rewrite Ha.
        replace (s_expires_at s <? now) with false by (symmetry; apply Z.ltb_ge; lia).
        unfold wrap, catch, GetUserByID, db_read. rewrite Hg. simpl. rewrite Hu. simpl.
        replace (negb (u_is_active u) || u_is_blocked u) with true
          by (destruct Hb as [-> | ->]; [reflexivity|symmetry; apply orb_true_r]).
        unfold ignore, InvalidateSession, db_write. simpl.
        destruct (f CInvalidate); reflexivity.
Qed.

Lemma Refresh_rejections_witness :
  Refresh hash_ex cfg_ex no_faults (t_ex + second) refresh_tok_ex st_blocked_ex =
    (Error ErrUserBlocked,
     {| db := update_sessions (fun x => String.eqb (s_id x) "s1") set_inactive
                (db st_blocked_ex);
        cache := cache st_blocked_ex |}).
Proof.
  destruct (ValidateRefreshToken cfg_ex (t_ex + second) refresh_tok_ex) as [c|e] eqn:Hc;
    [|vm_compute in Hc; discriminate Hc].
  destruct (session_by_hash (hash_ex refresh_tok_ex) (db st_blocked_ex)) as [s|] eqn:Hs;
    [|vm_compute in Hs; discriminate Hs].
  destruct (user_by_id (rc_user_id c) (db st_blocked_ex)) as [u|] eqn:Hu;
    [|vm_compute in Hc; injection Hc as <-; vm_compute in Hu; discriminate Hu].
  destruct (Refresh_rejections hash_ex cfg_ex no_faults (t_ex + second) refresh_tok_ex
              st_blocked_ex) as [_ H].
  destruct (H c Hc) as [_ H3].
  destruct (H3 s eq_refl Hs) as [_ [_ H4]].
  vm_compute in Hs. injection Hs as <-.
  apply (H4 u); [reflexivity|apply Z.ltb_ge; reflexivity|reflexivity|exact Hu|].
  vm_compute in Hc. injection Hc as <-. vm_compute in Hu. injection Hu as <-.
  right. reflexivity.
Defined.

Lemma newest_in l t : newest l = Some t -> In t l.
Proof.
  unfold newest.
  assert (Hg : forall acc, fold_left (fun acc t => match acc with
                          | Some b => if rt_created_at b <? rt_created_at t
                                      then Some t else Some b
                          | None => Some t
                          end) l acc = Some t -> acc = Some t \/ In t l).
  { induction l as [|x l IH]; intros acc H; simpl in H; [left; exact H|].
    apply IH in H as [H|H]; [|right; right; exact H].
    destruct acc as [b|].
    - destruct (rt_created_at b <? rt_created_at x); injection H as <-;
        [right; left; reflexivity|left; reflexivity].
    - injection H as <-. right. left. reflexivity. }
  intros H. apply Hg in H as [H|H]; [discriminate|exact H].
Qed.

Lemma VerifyPasswordReset_db eks f salt now req st st' :
  VerifyPasswordReset eks f salt now req st = (Ok tt, st') ->
  exists t h, reset_token_for (pv_email req) (pv_otp req) now (db st) = Some t /\
    HashPassword eks salt (pv_new_password req) = Ok h /\
    db st' = update_sessions (fun x => String.eqb (s_user_id x) (rt_user_id t)) set_inactive
               (with_reset_tokens (update_user (rt_user_id t) (set_password h now) (db st))
                  (map (fun r => if String.eqb (rt_id r) (rt_id t) then set_used now r else r)
                       (reset_tokens (update_user (rt_user_id t) (set_password h now) (db st))))).
Proof.
  intros H. unfold VerifyPasswordReset, bind at 1, bind_or, GetPasswordResetToken, db_read,
    throw in H.
  destruct (f CGetResetToken); [discriminate|].
  destruct (reset_token_for (pv_email req) (pv_otp req) now (db st)) as [t|] eqn:Ht;
    [|discriminate].
  exists t. unfold ret, bind at 1 in H.
  destruct (active_ids_best_effort_state f (rt_user_id t) st) as [ids Eids].
  rewrite Eids in H.
  unfold bind at 1, wrap at 1, catch at 1, lift in H.
  destruct (HashPassword eks salt (pv_new_password req)) as [h|e] eqn:Hh;
    [|unfold throw in H; discriminate].
  exists h. split; [reflexivity|]. split; [reflexivity|].
  unfold ret, bind at 1, wrap, catch, UpdateUserPassword, db_write, throw in H.
  destruct (f CUpdatePassword); [discriminate|]. cbn in H.
  unfold bind at 1, MarkPasswordResetTokenAsUsed, db_write in H.
  destruct (f CMarkUsed); [discriminate|]. cbn in H.
  unfold bind at 1, InvalidateAllUserSessions, db_write in H.
  destruct (f CInvalidateAll); [discriminate|]. cbn in H.
  unfold bind at 1 in H.
  match type of H with
  | context [mapM_ (cacheDelSession f) ids ?s0] =>
      destruct (mapM_cacheDelSession_frame f ids s0) as [st2 [E2 [Hd2 _]]];
      rewrite E2 in H
  end.
  destruct (cacheDelUser_ok f (rt_user_id t) st2) as [st3 [E3 Hd3]]. rewrite E3 in H.
  injection H as <-. rewrite Hd3, Hd2. reflexivity.
Qed.

(** X17. After a successful [VerifyPasswordReset], the OTP row it used is
    never returned by a reset-token lookup again, the user has no active
    session left, and the stored hash is one the new password verifies
    against. *)
Theorem VerifyPasswordReset_single_use eks f salt now req st st' :
  VerifyPasswordReset eks f salt now req st = (Ok tt, st') ->
  exists t h, reset_token_for (pv_email req) (pv_otp req) now (db st) = Some t /\
    (forall email otp now' t',
       reset_token_for email otp now' (db st') = Some t' -> rt_id t' <> rt_id t) /\
    active_session_ids (rt_user_id t) (db st') = [] /\
    user_by_id (rt_user_id t) (db st') =
      option_map (set_password h now) (user_by_id (rt_user_id t) (db st)) /\
    ComparePassword eks h (pv_new_password req) = true.
Proof.
  intros H. apply VerifyPasswordReset_db in H as [t [h [Ht [Hh Hdb]]]].
  exists t, h. split; [exact Ht|]. split; [|split; [|split]].
  - intros email otp now' t' Ht' Hid. apply newest_in in Ht'.
    apply list_elem_of_In, list_elem_of_filter in Ht' as [Hm Hin].
    rewrite Hdb in Hm, Hin. simpl in Hm, Hin.
    apply list_elem_of_In, in_map_iff in Hin as [r [Hr _]].
    subst t'. unfold reset_token_matches in Hm.
    destruct (String.eqb (rt_id r) (rt_id t)) eqn:E.
    + simpl in Hm. rewrite andb_false_r in Hm. simpl in Hm. exact Hm.
    + rewrite Hid, String.eqb_refl in E. discriminate.
  - rewrite Hdb. apply active_session_ids_update.
  - rewrite Hdb.
    rewrite (users_user_by_id (update_user (rt_user_id t) (set_password h now) (db st))
               (update_sessions _ _ _)) by reflexivity.
    apply user_by_id_update. intros; split; reflexivity.
  - apply (HashPassword_Compare eks salt). exact Hh.
Qed.

Lemma VerifyPasswordReset_single_use_witness :
  exists t h, reset_token_for "owner@example.com" "123456" t_ex (db st_reset_ex) = Some t /\
    (forall email otp now' t',
       reset_token_for email otp now'
         (db (snd (VerifyPasswordReset eks_ex no_faults "salt2" t_ex verify_ex st_reset_ex)))
       = Some t' -> rt_id t' <> rt_id t) /\
    active_session_ids (rt_user_id t)
      (db (snd (VerifyPasswordReset eks_ex no_faults "salt2" t_ex verify_ex st_reset_ex))) = [] /\
    user_by_id (rt_user_id t)
      (db (snd (VerifyPasswordReset eks_ex no_faults "salt2" t_ex verify_ex st_reset_ex))) =
      option_map (set_password h t_ex) (user_by_id (rt_user_id t) (db st_reset_ex)) /\
    ComparePassword eks_ex h "newpassword" = true.
Proof.
  apply (VerifyPasswordReset_single_use eks_ex no_faults "salt2" t_ex verify_ex st_reset_ex).
  vm_compute. reflexivity.
Defined.

Lemma map_cache_frame g st : db (snd (map_cache g st)) = db st /\ fst (map_cache g st) = Ok tt.
Proof. split; reflexivity. Qed.

Lemma cache_set_session_frame sid v ttl now st :
  cache_set_session sid v ttl now st = (Ok tt, snd (cache_set_session sid v ttl now st)) /\
  db (snd (cache_set_session sid v ttl now st)) = db st.
Proof. unfold cache_set_session. destruct (ttl <=? 0); split; reflexivity. Qed.

Lemma cache_set_user_frame uid v ttl now st :
  cache_set_user uid v ttl now st = (Ok tt, snd (cache_set_user uid v ttl now st)) /\
  db (snd (cache_set_user uid v ttl now st)) = db st.
Proof. unfold cache_set_user. destruct (ttl <=? 0); split; reflexivity. Qed.

Lemma mw_session_from_store_ok cfg f now sid st :
  exists o st', mw_session_from_store cfg f now sid st = (Ok o, st') /\ db st' = db st.
Proof.
  unfold mw_session_from_store, bind_or, GetSessionByID, db_read, ret, bind.
  destruct (f CGetSessionByID); [eauto|].
  destruct (session_by_id sid (db st)) as [s|]; [|eauto].
  destruct (negb (s_is_active s) || (s_expires_at s <? now)); [eauto|].
  match goal with
  | |- context [cache_set_session ?a ?b ?c ?d ?e] =>
      destruct (cache_set_session_frame a b c d e) as [E Hd];
      rewrite E; eauto
  end.
Qed.

Lemma mw_session_ok cfg f now sid st :
  exists o st', mw_session cfg f now sid st = (Ok o, st') /\ db st' = db st.
Proof.
  unfold mw_session, bind, cache_get_session.
  destruct (match cache st with
            | Some c => match c_sessions c !! sid with
                        | Some (v, d) => if now <? d then Some v else None
                        | None => None end
            | None => None end) as [c|]; [|apply mw_session_from_store_ok].
  destruct (negb (cs_is_active c) || _).
  - unfold ignore, ret, cache_del_session, throw, map_cache, modify.
    destruct (f CCacheDelSession); simpl; eauto.
  - destruct (String.eqb (cs_user_id c) EmptyString);
      [apply mw_session_from_store_ok|unfold ret; eauto].
Qed.

Lemma mw_user_ok cfg f now uid st :
  exists o st', mw_user cfg f now uid st = (Ok o, st') /\ db st' = db st.
Proof.
  unfold mw_user, bind, cache_get_user.
  destruct (match cache st with
            | Some c => match c_users c !! uid with
                        | Some (v, d) => if now <? d then Some v else None
                        | None => None end
            | None => None end) as [c|]; [unfold ret; eauto|].
  unfold bind_or, GetUserByID, db_read, ret.
  destruct (f CGetUserByID); [eauto|].
  destruct (user_by_id uid (db st)) as [u|]; [|eauto].
  match goal with
  | |- context [cache_set_user ?a ?b ?c ?d ?e] =>
      destruct (cache_set_user_frame a b c d e) as [E Hd];
      rewrite E; eauto
  end.
Qed.

(** X6. The middleware never writes the store and never fails: every run of
    [Authenticate] returns an outcome and leaves the database as it was. *)
Theorem Authenticate_store_unchanged cfg f now tok st r st' :
  Authenticate cfg f now tok st = (r, st') ->
  db st' = db st /\ exists o, r = Ok o.
Proof.
  unfold Authenticate, ret.
  destruct (token_is_empty tok); [intros H; injection H as <- <-; eauto|].
  destruct (ValidateAccessToken cfg now tok) as [claims|[]];
    try (intros H; injection H as <- <-; eauto).
  unfold bind.
  destruct (mw_session_ok cfg f now (ac_session_id claims) st) as [o [st1 [E1 Hd1]]].
  rewrite E1. destruct o as [suid|]; [|intros H; injection H as <- <-; eauto].
  destruct (negb _ && negb _); [intros H; injection H as <- <-; eauto|].
  destruct (mw_user_ok cfg f now (ac_user_id claims) st1) as [o [st2 [E2 Hd2]]].
  rewrite E2. rewrite <- Hd1, <- Hd2.
  destruct o as [cu|]; [|intros H; injection H as <- <-; eauto].
  destruct (negb (cu_is_active cu) || cu_is_blocked cu); intros H; injection H as <- <-; eauto.
Qed.

Lemma Authenticate_store_unchanged_witness :
  db (snd (Authenticate cfg_ex no_faults t_ex access_ex st_live_ex)) = db st_live_ex /\
  exists o, fst (Authenticate cfg_ex no_faults t_ex access_ex st_live_ex) = Ok o.
Proof.
  apply (Authenticate_store_unchanged cfg_ex no_faults t_ex access_ex st_live_ex
           (fst (Authenticate cfg_ex no_faults t_ex access_ex st_live_ex))).
  vm_compute. reflexivity.
Defined.

Lemma ValidateAccessToken_not_empty cfg now tok c :
  ValidateAccessToken cfg now tok = Ok c -> token_is_empty tok = false.
Proof.
  unfold ValidateAccessToken, parse_and_check. destruct tok; [reflexivity|discriminate].
Qed.

(** X7. Without a cache, a request passes exactly when its access token is
    valid, the session-id lookup succeeds on an active session that has
    not expired and belongs to the token's user (or has no user id), and
    the user lookup succeeds on an active, unblocked user; the context
    then holds the store's email and role, and the state is unchanged. *)
Theorem Authenticate_without_cache cfg f now tok st ctx st' :
  cache st = None ->
  (Authenticate cfg f now tok st = (Ok (Pass ctx), st') <->
   st' = st /\
   exists claims s u,
     ValidateAccessToken cfg now tok = Ok claims /\
     f CGetSessionByID = false /\
     session_by_id (ac_session_id claims) (db st) = Some s /\
     s_is_active s = true /\ now <= s_expires_at s /\
     (s_user_id s = EmptyString \/ s_user_id s = ac_user_id claims) /\
     f CGetUserByID = false /\
     user_by_id (ac_user_id claims) (db st) = Some u /\
     u_is_active u = true /\ u_is_blocked u = false /\
     ctx = {| ctx_id := ac_user_id claims; ctx_email := u_email u;
              ctx_role := u_role u; ctx_session_id := ac_session_id claims |}).
Proof.
  destruct st as [d c]. simpl. intros ->.
  split.
  - unfold Authenticate, ret.
    destruct (token_is_empty tok) eqn:Htok; [discriminate|].
    destruct (ValidateAccessToken cfg now tok) as [claims|[]] eqn:Hv; try discriminate.
    unfold bind, mw_session, bind, cache_get_session, mw_session_from_store, bind_or,
      GetSessionByID, db_read, ret. simpl.
    destruct (f CGetSessionByID) eqn:Hfs; [discriminate|].
    destruct (session_by_id (ac_session_id claims) d) as [s|] eqn:Hs; [|discriminate].
    destruct (s_is_active s) eqn:Ha; [|discriminate].
    destruct (s_expires_at s <? now) eqn:He; [discriminate|]. simpl.
    unfold cache_set_session, map_cache, modify, ret.
    match goal with
    | |- context [if ?b <=? 0 then _ else _] => destruct (b <=? 0)
    end; simpl;
    (destruct (negb (String.eqb (s_user_id s) EmptyString)
               && negb (String.eqb (s_user_id s) (ac_user_id claims))) eqn:Hsu;
       [discriminate|]);
    unfold mw_user, bind, cache_get_user, bind_or, GetUserByID, db_read, ret; simpl;
    (destruct (f CGetUserByID) eqn:Hfu; [discriminate|]);
    (destruct (user_by_id (ac_user_id claims) d) as [u|] eqn:Hu; [|discriminate]);
    unfold cache_set_user, map_cache, modify, ret;
    (match goal with
     | |- context [if ?b <=? 0 then _ else _] => destruct (b <=? 0)
     end; simpl);
    (destruct (u_is_active u) eqn:Hua; [|discriminate]);
    (destruct (u_is_blocked u) eqn:Hub; [discriminate|]); simpl;
    intros H; injection H as <- <-;
    (split; [reflexivity|]);
    exists claims, s, u;
    repeat (split; [first [reflexivity | apply Z.ltb_ge; exact He
                          | apply andb_false_iff in Hsu as [Hsu|Hsu];
                            apply negb_false_iff, String.eqb_eq in Hsu; auto]|]);
    reflexivity.
  - intros [-> [claims [s [u [Hv [Hfs [Hs [Ha [He [Hsu [Hfu [Hu [Hua [Hub ->]]]]]]]]]]]]]].
    unfold Authenticate, ret.
    rewrite (ValidateAccessToken_not_empty _ _ _ _ Hv), Hv.
    unfold bind, mw_session, bind, cache_get_session, mw_session_from_store, bind_or,
      GetSessionByID, db_read, ret. simpl.
    rewrite Hfs, Hs, Ha. replace (s_expires_at s <? now) with false
      by (symmetry; apply Z.ltb_ge; exact He). simpl.
    assert (Hsu' : negb (String.eqb (s_user_id s) EmptyString)
                   && negb (String.eqb (s_user_id s) (ac_user_id claims)) = false)
      by (destruct Hsu as [-> | ->]; rewrite String.eqb_refl;
          [reflexivity|apply andb_false_r]).
    unfold cache_set_session, map_cache, modify, ret.
    match goal with
    | |- context [if ?b <=? 0 then _ else _] => destruct (b <=? 0)
    end; simpl; rewrite Hsu'; simpl;
    unfold mw_user, bind, cache_get_user, bind_or, GetUserByID, db_read, ret; simpl;
    rewrite Hfu, Hu;
    unfold cache_set_user, map_cache, modify, ret;
    (match goal with
     | |- context [if ?b <=? 0 then _ else _] => destruct (b <=? 0)
     end; simpl);
    rewrite Hua, Hub; reflexivity.
Qed.

Lemma Authenticate_without_cache_witness :
  Authenticate cfg_ex no_faults t_ex access_ex st_nocache_ex =
    (Ok (Pass {| ctx_id := "u1"; ctx_email := "owner@example.com"; ctx_role := "owner";
                 ctx_session_id := "s1" |}), st_nocache_ex).
Proof.
  apply Authenticate_without_cache; [reflexivity|].
  split; [reflexivity|].
  exists {| ac_user_id := "u1"; ac_email := "owner@example.com"; ac_role := "owner";
            ac_session_id := "s1" |},
         (session_ex (t_ex + 168 * 3600 * second)), owner_ex.
  split; [vm_compute; reflexivity|]. split; [reflexivity|].
  split; [reflexivity|]. split; [reflexivity|].
  split; [apply Z.ltb_ge; reflexivity|]. split; [right; reflexivity|].
  split; [reflexivity|]. split; [reflexivity|].
  split; [reflexivity|]. split; reflexivity.
Defined.

Lemma revoked_cache_set_session sid sid' v ttl now st :
  session_revoked sid st -> sid' <> sid \/ cs_is_active v = false ->
  session_revoked sid (snd (cache_set_session sid' v ttl now st)).
Proof.
  intros [Hs Hc] Hv. unfold cache_set_session.
  destruct (ttl <=? 0); [split; assumption|].
  destruct st as [d [c|]]; simpl in *;
    [|split; [assumption|discriminate]].
  split; [assumption|].
  intros c' v' d' Hc' Hl. injection Hc' as <-. simpl in Hl.
  destruct (String.eq_dec sid' sid) as [->|Hn].
  - rewrite lookup_insert_eq in Hl. injection Hl as <- _.
    destruct Hv as [Hv|Hv]; [congruence|exact Hv].
  - rewrite lookup_insert_ne in Hl by exact Hn. eapply Hc; [reflexivity|exact Hl].
Qed.

Lemma revoked_cache_set_user sid uid v ttl now st :
  session_revoked sid st -> session_revoked sid (snd (cache_set_user uid v ttl now st)).
Proof.
  intros [Hs Hc]. unfold cache_set_user.
  destruct (ttl <=? 0); [split; assumption|].
  destruct st as [d [c|]]; simpl in *;
    [|split; [assumption|discriminate]].
  split; [assumption|].
  intros c' v' d' Hc' Hl. injection Hc' as <-. simpl in Hl. eapply Hc; [reflexivity|exact Hl].
Qed.

Lemma revoked_cache_del_session sid f sid' st :
  session_revoked sid st -> session_revoked sid (snd (cache_del_session f sid' st)).
Proof.
  intros [Hs Hc]. unfold cache_del_session, throw.
  destruct (f CCacheDelSession); [split; assumption|].
  destruct st as [d [c|]]; simpl in *;
    [|split; [assumption|discriminate]].
  split; [assumption|].
  intros c' v' d' Hc' Hl. injection Hc' as <-. simpl in Hl.
  destruct (String.eq_dec sid' sid) as [->|Hn].
  - rewrite lookup_delete_eq in Hl. discriminate.
  - rewrite lookup_delete_ne in Hl by exact Hn. eapply Hc; [reflexivity|exact Hl].
Qed.

Lemma mw_session_from_store_revoked cfg f now sid sid' st r st' :
  session_revoked sid st ->
  mw_session_from_store cfg f now sid' st = (r, st') ->
  session_revoked sid st' /\ (sid' = sid -> r = Ok None).
Proof.
  intros Hinv. unfold mw_session_from_store, bind_or, GetSessionByID, db_read, ret, bind.
  destruct (f CGetSessionByID); [intros H; injection H as <- <-; auto|].
  destruct (session_by_id sid' (db st)) as [s|] eqn:Hs;
    [|intros H; injection H as <- <-; auto].
  apply find_some in Hs as [Hin Hid]. apply String.eqb_eq in Hid.
  destruct (negb (s_is_active s) || (s_expires_at s <? now)) eqn:Hb;
    [intros H; injection H as <- <-; auto|].
  apply orb_false_iff in Hb as [Ha _]. apply negb_false_iff in Ha.
  assert (Hne : sid' <> sid).
  { intros ->. rewrite ((proj1 Hinv) s Hin Hid) in Ha. discriminate. }
  match goal with
  | |- context [cache_set_session ?a ?b ?c ?d ?e] =>
      destruct (cache_set_session_frame a b c d e) as [E _];
      pose proof (revoked_cache_set_session sid a b c d e Hinv (or_introl Hne)) as Hi;
      rewrite E
  end.
  intros H. injection H as <- <-. split; [exact Hi|]. intros Heq. contradiction.
Qed.

Lemma mw_session_revoked cfg f now sid sid' st r st' :
  session_revoked sid st ->
  mw_session cfg f now sid' st = (r, st') ->
  session_revoked sid st' /\ (sid' = sid -> r = Ok None).
Proof.
  intros Hinv. unfold mw_session, bind, cache_get_session.
  destruct (match cache st with
            | Some c => match c_sessions c !! sid' with
                        | Some (v, d) => if now <? d then Some v else None
                        | None => None end
            | None => None end) as [cs|] eqn:Hcs;
    [|apply mw_session_from_store_revoked; exact Hinv].
  assert (Hact : sid' = sid -> cs_is_active cs = false).
  { intros ->. destruct (cache st) as [c|] eqn:Hc; [|discriminate].
    destruct (c_sessions c !! sid) as [[v d]|] eqn:Hl; [|discriminate].
    destruct (now <? d); [|discriminate]. injection Hcs as <-.
    exact ((proj2 Hinv) c v d Hc Hl). }
  destruct (negb (cs_is_active cs) || _) eqn:Hb.
  - unfold ignore, ret. intros H. injection H as <- <-.
    split; [apply revoked_cache_del_session; exact Hinv|reflexivity].
  - assert (Hne : sid' <> sid).
    { intros ->. rewrite (Hact eq_refl) in Hb. discriminate. }
    destruct (String.eqb (cs_user_id cs) EmptyString);
      [apply mw_session_from_store_revoked; exact Hinv|].
    unfold ret. intros H. injection H as <- <-. split; [exact Hinv|].
    intros Heq. contradiction.
Qed.

Lemma mw_user_revoked cfg f now sid uid st r st' :
  session_revoked sid st -> mw_user cfg f now uid st = (r, st') -> session_revoked sid st'.
Proof.
  intros Hinv. unfold mw_user, bind, cache_get_user.
  destruct (match cache st with
            | Some c => match c_users c !! uid with
                        | Some (v, d) => if now <? d then Some v else None
                        | None => None end
            | None => None end) as [c|];
    [unfold ret; intros H; injection H as <- <-; exact Hinv|].
  unfold bind_or, GetUserByID, db_read, ret.
  destruct (f CGetUserByID); [intros H; injection H as <- <-; exact Hinv|].
  destruct (user_by_id uid (db st)) as [u|]; [|intros H; injection H as <- <-; exact Hinv].
  match goal with
  | |- context [cache_set_user ?a ?b ?c ?d ?e] =>
      destruct (cache_set_user_frame a b c d e) as [E _];
      pose proof (revoked_cache_set_user sid a b c d e Hinv) as Hi; rewrite E
  end.
  intros H. injection H as <- <-. exact Hi.
Qed.

Lemma Authenticate_revoked cfg f now tok sid st r st' :
  session_revoked sid st ->
  Authenticate cfg f now tok st = (r, st') ->
  session_revoked sid st' /\ (forall ctx, r = Ok (Pass ctx) -> ctx_session_id ctx <> sid).
Proof.
  intros Hinv. unfold Authenticate, ret.
  destruct (token_is_empty tok);
    [intros H; injection H as <- <-; split; [exact Hinv|discriminate]|].
  destruct (ValidateAccessToken cfg now tok) as [claims|[]];
    try (intros H; injection H as <- <-; split; [exact Hinv|discriminate]).
  unfold bind at 1.
  destruct (mw_session cfg f now (ac_session_id claims) st) as [r1 st1] eqn:E1.
  destruct (mw_session_revoked _ _ _ _ _ _ _ _ Hinv E1) as [Hinv1 Hno].
  destruct r1 as [[suid|]|e].
  - assert (Hne : ac_session_id claims <> sid) by (intros Heq; specialize (Hno Heq); discriminate).
    destruct (negb _ && negb _);
      [intros H; injection H as <- <-; split; [exact Hinv1|discriminate]|].
    unfold bind.
    destruct (mw_user cfg f now (ac_user_id claims) st1) as [r2 st2] eqn:E2.
    pose proof (mw_user_revoked _ _ _ _ _ _ _ _ Hinv1 E2) as Hinv2.
    destruct r2 as [[cu|]|e]; [|intros H; injection H as <- <-; split; [exact Hinv2|discriminate]|].
    + destruct (negb (cu_is_active cu) || cu_is_blocked cu); intros H; injection H as <- <-;
        (split; [exact Hinv2|]); intros ctx Hc; [discriminate|].
      injection Hc as <-. exact Hne.
    + intros H; injection H as <- <-. split; [exact Hinv2|discriminate].
  - intros H; injection H as <- <-. split; [exact Hinv1|discriminate].
  - intros H; injection H as <- <-. split; [exact Hinv1|discriminate].
Qed.

Lemma authenticate_all_revoked cfg sid reqs st os st' :
  session_revoked sid st ->
  authenticate_all cfg reqs st = (Ok os, st') ->
  forall ctx, In (Pass ctx) os -> ctx_session_id ctx <> sid.
Proof.
  revert st os st'. induction reqs as [|[[f now] tok] rest IH];
    intros st os st' Hinv H ctx Hin; simpl in H.
  - unfold ret in H. injection H as <- _. destruct Hin.
  - unfold bind at 1 in H.
    destruct (Authenticate cfg f now tok st) as [r1 st1] eqn:E1.
    destruct (Authenticate_revoked _ _ _ _ _ _ _ _ Hinv E1) as [Hinv1 Hno].
    destruct r1 as [o|e]; [|discriminate].
    unfold bind in H.
    destruct (authenticate_all cfg rest st1) as [[os'|e] st2] eqn:E2; [|discriminate].
    unfold ret in H. injection H as <- _.
    destruct Hin as [Heq|Hin].
    + apply Hno. rewrite Heq. reflexivity.
    + exact (IH st1 os' st2 Hinv1 E2 ctx Hin).
Qed.

Lemma Logout_revokes f sid st st' :
  Logout f sid st = (Ok tt, st') -> f CCacheDelSession = false -> sid <> EmptyString ->
  session_revoked sid st'.
Proof.
  intros H Hdel Hne. unfold Logout, bind, wrap, catch, InvalidateSession, db_write, throw in H.
  destruct (f CInvalidate); [discriminate|].
  unfold cacheDelSession, bind, has_cache, ret in H. simpl in H.
  apply String.eqb_neq in Hne.
  set (d' := update_sessions (fun x => String.eqb (s_id x) sid) set_inactive (db st)) in H.
  assert (Hs : forall x, In x (sessions d') -> s_id x = sid -> s_is_active x = false).
  { unfold d', update_sessions, with_sessions. simpl. intros x Hx Hid.
    apply in_map_iff in Hx as [y [<- _]].
    destruct (String.eqb (s_id y) sid) eqn:E; [destruct y; reflexivity|].
    rewrite Hid in E. rewrite String.eqb_refl in E. discriminate. }
  destruct (cache st) as [c|] eqn:Hc; simpl in H.
  - rewrite Hne in H. simpl in H.
    unfold ignore, cache_del_session, map_cache, modify in H. rewrite Hdel in H.
    simpl in H. injection H as <-. split; [exact Hs|].
    intros c' v d Hc' Hl. simpl in Hc'. injection Hc' as <-. simpl in Hl.
    rewrite lookup_delete_eq in Hl. discriminate.
  - injection H as <-. split; [exact Hs|]. simpl. discriminate.
Qed.

(** X8. After a successful [Logout] of a non-empty session id whose cache
    delete does not fail, no later request through the middleware passes
    with that session id, for any tokens, clocks and faults. *)
Theorem Logout_revokes_session cfg f sid st st' reqs os st'' :
  Logout f sid st = (Ok tt, st') -> f CCacheDelSession = false -> sid <> EmptyString ->
  authenticate_all cfg reqs st' = (Ok os, st'') ->
  forall ctx, In (Pass ctx) os -> ctx_session_id ctx <> sid.
Proof.
  intros H Hdel Hne Hall.
  exact (authenticate_all_revoked cfg sid reqs st' os st''
           (Logout_revokes f sid st st' H Hdel Hne) Hall).
Qed.

Lemma Logout_revokes_session_witness :
  match authenticate_all cfg_ex reqs_ex st_logged_out_ex with
  | (Ok os, _) => forall ctx, In (Pass ctx) os -> ctx_session_id ctx <> "s1"
  | _ => False
  end.
Proof.
  destruct (authenticate_all cfg_ex reqs_ex st_logged_out_ex) as [[os|e] st2] eqn:Ea;
    [|vm_compute in Ea; discriminate Ea].
  apply (Logout_revokes_session cfg_ex no_faults "s1" st_live_ex st_logged_out_ex reqs_ex
           os st2); [vm_compute; reflexivity|reflexivity|discriminate|exact Ea].
Defined.
